(** * IBC core: commitment proofs, Merkle root builder, misbehaviour check
      and connection handshake handlers

    A shallow embedding of

    - [x/ibc/23-commitment] signature proofs ([SignatureProof]),
    - [store/rootmulti] Merkle maps ([merkleMap], [simpleMap], [hashKVPairs]),
    - [x/ibc/07-tendermint] [CheckMisbehaviourAndUpdateState],
    - [x/ibc/03-connection] message handlers,

    together with the properties that the design document states about them.

    Conventions.  Go byte slices are [list byte]; a [nil] slice and an empty
    slice are both [[]] (the code only takes [len] of them and appends).
    Unsigned 64-bit integers are [Z] with the wrap-around written out.  A Go
    [panic] is an explicit outcome.  Functions of other libraries (Tendermint
    hashing, Merkle trees, commit verification, the keepers) are operations
    of a type class, so every statement holds for whatever they compute. *)

From Stdlib Require Import ZArith Strings.Byte.
From stdpp Require Import base tactics option list sorting strings.

Local Open Scope Z_scope.

(** ** Bytes *)

Abbreviation bytes := (list byte).

(** [byte(x)] for an unsigned integer [x]: the low eight bits. *)
Definition byte_of_Z (x : Z) : byte :=
  default x00 (Byte.of_N (Z.to_N (x mod 256))).

Definition Z_of_byte (b : byte) : Z := Z.of_N (Byte.to_N b).

(** [len(bz)] *)
Definition len {A} (l : list A) : Z := Z.of_nat (length l).

(** [[]byte(s)] for a Go string. *)
Definition bytes_of_string (s : string) : bytes := String.list_byte_of_string s.

(** [bytes.Compare]: lexicographic on unsigned byte values, a proper prefix
    is smaller; [Lt], [Eq], [Gt] stand for -1, 0, +1. *)
Fixpoint bytes_Compare (a b : bytes) : comparison :=
  match a, b with
  | [], [] => Eq
  | [], _ :: _ => Lt
  | _ :: _, [] => Gt
  | x :: a', y :: b' =>
      match N.compare (Byte.to_N x) (Byte.to_N y) with
      | Eq => bytes_Compare a' b'
      | c => c
      end
  end.

(** ** Outcomes of Go calls that may panic *)

Inductive outcome (A E : Type) : Type :=
  | Ok (a : A)
  | Err (e : E)
  | Panic.
Arguments Ok {A E} a.
Arguments Err {A E} e.
Arguments Panic {A E}.

(** ** External hashing (Tendermint [crypto/tmhash] and [crypto/merkle]) *)

Class Hashing := {
  (** [tmhash.Sum], SHA-256 *)
  tmhash_Sum : bytes → bytes;
  (** [tmhash.Size]: a sum has 32 bytes *)
  tmhash_Size : ∀ bz, length (tmhash_Sum bz) = 32%nat;
  (** [merkle.SimpleHashFromByteSlices] *)
  SimpleHashFromByteSlices : list bytes → bytes;
}.

(** * store/rootmulti: Merkle maps *)
Module Rootmulti.

(** [kv.Pair] of Tendermint's [libs/kv] *)
Record Pair := mkPair { Key : bytes; Value : bytes }.

(** [kv.Pairs] *)
Abbreviation Pairs := (list Pair).

(** [kv.Pairs.Less], on the two pairs rather than their indices: by key, and
    by value when the keys are equal (the source notes of [Hash]: sorted by
    key, and by value too if duplicate key). *)
Definition Less (p q : Pair) : bool :=
  match bytes_Compare (Key p) (Key q) with
  | Lt => true
  | Eq => match bytes_Compare (Value p) (Value q) with Lt => true | _ => false end
  | Gt => false
  end.

(** The order [sort.Sort] establishes: no later element is [Less] than an
    earlier one. *)
Definition pair_le (p q : Pair) : Prop := Less q p = false.

Global Instance pair_le_dec p q : Decision (pair_le p q).
Proof. unfold pair_le. apply _. Defined.

(** [kv.Pairs.Sort], i.e. [sort.Sort] with [Less].  [Less] is a strict total
    order on pairs whose incomparable elements are equal, so every sorting
    algorithm returns the same slice (see [Sort_unique]); merge sort stands
    for Go's. *)
Definition Pairs_Sort (kvs : Pairs) : Pairs := merge_sort pair_le kvs.

(** [binary.PutUvarint(buf, x)], as the bytes written to [buf[:n]];
    [cap] is [len(buf)], and writing past it panics ([None]). *)
Fixpoint PutUvarint (cap : nat) (x : Z) : option bytes :=
  match cap with
  | O => None
  | S cap' =>
      if 128 <=? x
      then (byte_of_Z (Z.lor (Z_of_byte (byte_of_Z x)) 128) ::.) <$>
             PutUvarint cap' (Z.shiftr x 7)
      else Some [byte_of_Z x]
  end.

(** [encodeByteSlice], as the bytes appended to the writer; the buffer has
    eight bytes. *)
Definition encodeByteSlice (bz : bytes) : option bytes :=
  pre ← PutUvarint 8 (len bz);
  Some (pre ++ bz).

(** [kvPair.bytes] (and the identical [KVPair.Bytes]). *)
Definition kvPair_bytes (kv : Pair) : option bytes :=
  k ← encodeByteSlice (Key kv);
  v ← encodeByteSlice (Value kv);
  Some (k ++ v).

Section WithHashing.
Context `{Hashing}.

(** [hashKVPairs] *)
Definition hashKVPairs (kvs : Pairs) : option bytes :=
  kvsH ← mapM kvPair_bytes kvs;
  Some (SimpleHashFromByteSlices kvsH).

(** [simpleMap] *)
Record simpleMap := mkSimpleMap { kvs : Pairs; sorted : bool }.

Definition newSimpleMap : simpleMap := {| kvs := []; sorted := false |}.

(** [simpleMap.Set] *)
Definition Set_ (key : string) (value : bytes) (sm : simpleMap) : simpleMap :=
  let vhash := tmhash_Sum value in
  {| kvs := kvs sm ++ [{| Key := bytes_of_string key; Value := vhash |}];
     sorted := false |}.

(** [simpleMap.Sort] *)
Definition Sort (sm : simpleMap) : simpleMap :=
  if sorted sm then sm
  else {| kvs := Pairs_Sort (kvs sm); sorted := true |}.

(** [simpleMap.Hash]: the map after the call and the root ([None]: panic). *)
Definition Hash (sm : simpleMap) : simpleMap * option bytes :=
  let sm' := Sort sm in
  (sm', hashKVPairs (kvs sm')).

(** [simpleMap.KVPairs] *)
Definition KVPairs (sm : simpleMap) : simpleMap * Pairs :=
  let sm' := Sort sm in
  (sm', kvs sm').

(** [merkleMap], the second builder of the file. *)
Record merkleMap := mkMerkleMap { mkvs : Pairs; msorted : bool }.

Definition newMerkleMap : merkleMap := {| mkvs := []; msorted := false |}.

(** [merkleMap.set] *)
Definition set (key : string) (value : bytes) (sm : merkleMap) : merkleMap :=
  let vhash := tmhash_Sum value in
  {| mkvs := mkvs sm ++ [{| Key := bytes_of_string key; Value := vhash |}];
     msorted := false |}.

(** [merkleMap.sort] *)
Definition sort (sm : merkleMap) : merkleMap :=
  if msorted sm then sm
  else {| mkvs := Pairs_Sort (mkvs sm); msorted := true |}.

(** [merkleMap.hash] *)
Definition hash (sm : merkleMap) : merkleMap * option bytes :=
  let sm' := sort sm in
  (sm', hashKVPairs (mkvs sm')).

(** A sequence of insertions, applied in order to a builder. *)
Definition Set_all (ins : list (string * bytes)) (sm : simpleMap) : simpleMap :=
  foldl (λ m kv, Set_ kv.1 kv.2 m) sm ins.

Definition set_all (ins : list (string * bytes)) (sm : merkleMap) : merkleMap :=
  foldl (λ m kv, set kv.1 kv.2 m) sm ins.

(** The pair an insertion appends. *)
Definition inserted (kv : string * bytes) : Pair :=
  {| Key := bytes_of_string kv.1; Value := tmhash_Sum kv.2 |}.

(** The two builders of the file in lockstep. *)
Definition same_builder (mm : merkleMap) (sm : simpleMap) : Prop :=
  mkvs mm = kvs sm ∧ msorted mm = sorted sm.

(** The literal scenario of the design document: keys b, a, c with values
    2, 1, 3, and the same pairs in the order a, c, b. *)
Definition literal_bac : list (string * bytes) :=
  [("b"%string, bytes_of_string "2"); ("a"%string, bytes_of_string "1");
   ("c"%string, bytes_of_string "3")].
Definition literal_acb : list (string * bytes) :=
  [("a"%string, bytes_of_string "1"); ("c"%string, bytes_of_string "3");
   ("b"%string, bytes_of_string "2")].

End WithHashing.

(** *** The leaf format as the design document words it *)

(** Little-endian base-128 digits of [x], at least one; [fuel] bounds their
    number. *)
Fixpoint digits128 (fuel : nat) (x : Z) : list Z :=
  match fuel with
  | O => []
  | S fuel' =>
      if x <? 128 then [x] else x mod 128 :: digits128 fuel' (x / 128)
  end.

(** The continuation bit is set on every digit but the last. *)
Fixpoint continuation (ds : list Z) : list Z :=
  match ds with
  | [] => []
  | [d] => [d]
  | d :: ds' => d + 128 :: continuation ds'
  end.

(** Protocol-buffer-style unsigned varint of a 64-bit value (at most ten
    digits). *)
Definition varint (x : Z) : bytes := byte_of_Z <$> continuation (digits128 10 x).

(** The value a varint byte string stands for. *)
Fixpoint varint_value (bs : bytes) : Z :=
  match bs with
  | [] => 0
  | b :: bs' => Z_of_byte b mod 128 + 128 * varint_value bs'
  end.

(** [varint(len(key)) || key || varint(len(hashedValue)) || hashedValue] *)
Definition leaf (kv : Pair) : bytes :=
  varint (len (Key kv)) ++ Key kv ++ varint (len (Value kv)) ++ Value kv.

(** Sorted lexicographically by raw key bytes. *)
Definition key_le (p q : Pair) : Prop := bytes_Compare (Key p) (Key q) ≠ Gt.

(** Pairs whose lengths an eight-byte varint buffer can hold (seven bits a
    byte); no slice in memory is longer. *)
Definition fits (kv : Pair) : Prop :=
  len (Key kv) < 2 ^ 56 ∧ len (Value kv) < 2 ^ 56.

(** [NewKVPair] *)
Definition NewKVPair (key value : bytes) : Pair := {| Key := key; Value := value |}.

(** [KVPair.Bytes], the exported twin of [kvPair.bytes]. *)
Definition KVPair_Bytes (kv : Pair) : option bytes :=
  k ← encodeByteSlice (Key kv);
  v ← encodeByteSlice (Value kv);
  Some (k ++ v).

(** *** Calls on a builder *)

(** The methods both builders have. *)
Inductive call :=
  | CallSet (key : string) (value : bytes)
  | CallHash
  | CallSort.

Section Calls.
Context `{Hashing}.

(** The builder a call leaves. *)
Definition apply (c : call) (sm : simpleMap) : simpleMap :=
  match c with
  | CallSet key value => Set_ key value sm
  | CallHash => (Hash sm).1
  | CallSort => Sort sm
  end.

Definition mapply (c : call) (mm : merkleMap) : merkleMap :=
  match c with
  | CallSet key value => set key value mm
  | CallHash => (hash mm).1
  | CallSort => sort mm
  end.

(** A sequence of calls, in order. *)
Definition run (calls : list call) (sm : simpleMap) : simpleMap :=
  foldl (λ m c, apply c m) sm calls.

(** The roots the [Hash] calls of a sequence return, in order. *)
Fixpoint roots (calls : list call) (sm : simpleMap) : list (option bytes) :=
  match calls with
  | [] => []
  | CallHash :: calls' => (Hash sm).2 :: roots calls' (Hash sm).1
  | c :: calls' => roots calls' (apply c sm)
  end.

Fixpoint mroots (calls : list call) (mm : merkleMap) : list (option bytes) :=
  match calls with
  | [] => []
  | CallHash :: calls' => (hash mm).2 :: mroots calls' (hash mm).1
  | c :: calls' => mroots calls' (mapply c mm)
  end.

(** The insertions among the calls. *)
Definition insertions (calls : list call) : list (string * bytes) :=
  omap (λ c, match c with CallSet key value => Some (key, value) | _ => None end) calls.

(** What every builder made by calls keeps: the pairs are the inserted ones
    in some order, and a builder flagged sorted is sorted. *)
Definition consistent (sm : simpleMap) (l : Pairs) : Prop :=
  kvs sm ≡ₚ l ∧ (sorted sm = true → Sorted pair_le (kvs sm)).

End Calls.

(** *** Reading a leaf back

    The inverse of the encoders; the source only writes leaves, these
    readers serve to state that what it writes is unambiguous. *)

(** A varint at the head of a byte string: its value and the rest. *)
Fixpoint uvarint_split (bs : bytes) : option (Z * bytes) :=
  match bs with
  | [] => None
  | b :: rest =>
      if Z_of_byte b <? 128 then Some (Z_of_byte b, rest)
      else '(v, r) ← uvarint_split rest; Some (Z_of_byte b - 128 + 128 * v, r)
  end.

(** A length-prefixed byte slice at the head of a byte string. *)
Definition decodeByteSlice (bs : bytes) : option (bytes * bytes) :=
  '(n, rest) ← uvarint_split bs;
  if n <=? len rest
  then Some (take (Z.to_nat n) rest, drop (Z.to_nat n) rest)
  else None.

(** A pair at the head of a byte string. *)
Definition decodeKVPair (bs : bytes) : option (Pair * bytes) :=
  '(k, r) ← decodeByteSlice bs;
  '(v, r') ← decodeByteSlice r;
  Some ({| Key := k; Value := v |}, r').

(** Strictly increasing raw key bytes. *)
Definition key_lt (p q : Pair) : Prop := bytes_Compare (Key p) (Key q) = Lt.

End Rootmulti.

(** * x/ibc/23-commitment: signature proofs *)
Module Commitment.

(** [exported.Type] *)
Inductive Type_ := Merkle | Signature.

(** The package's error sentinels. *)
Inductive error := ErrInvalidProof | ErrInvalidPrefix.

(** [exported.Proof], the contract every proof variant implements; [Root]
    and [Path] are the interfaces [exported.Root] and [exported.Path]. *)
Class Proof (Root Path P : Type) := {
  GetCommitmentType : P → Type_;
  VerifyMembership : P → Root → Path → bytes → option error;
  VerifyNonMembership : P → Root → Path → option error;
  IsEmpty : P → bool;
  ValidateBasic : P → option error;
}.

(** [exported.Prefix] *)
Class Prefix (P : Type) := {
  Prefix_GetCommitmentType : P → Type_;
  Prefix_Bytes : P → bytes;
  Prefix_IsEmpty : P → bool;
}.

(** Modelled from the spec: the struct declarations of [SignatureProof] and
    [SignaturePrefix] are generated code outside the sources at hand; the
    signature variant wraps one signature byte string, a prefix is an opaque
    key-prefix byte string. *)
Record SignatureProof := { Signature_ : bytes }.
Record SignaturePrefix := { KeyPrefix : bytes }.

Definition NewSignaturePrefix (keyPrefix : bytes) : SignaturePrefix :=
  {| KeyPrefix := keyPrefix |}.

Definition SignaturePrefix_Bytes (sp : SignaturePrefix) : bytes := KeyPrefix sp.

Definition SignaturePrefix_IsEmpty (sp : SignaturePrefix) : bool :=
  bool_decide (len (SignaturePrefix_Bytes sp) = 0).

Global Instance SignaturePrefix_Prefix : Prefix SignaturePrefix := {|
  Prefix_GetCommitmentType _ := Signature;
  Prefix_Bytes := SignaturePrefix_Bytes;
  Prefix_IsEmpty := SignaturePrefix_IsEmpty;
|}.

(** [SignatureProof.IsEmpty] *)
Definition SignatureProof_IsEmpty (proof : SignatureProof) : bool :=
  bool_decide (len (Signature_ proof) = 0).

(** [SignatureProof.ValidateBasic] *)
Definition SignatureProof_ValidateBasic (proof : SignatureProof) : option error :=
  if SignatureProof_IsEmpty proof then Some ErrInvalidProof else None.

Section SignatureProof.
Context {Root Path : Type}.

(** [SignatureProof.VerifyMembership] *)
Definition SignatureProof_VerifyMembership
    (proof : SignatureProof) (root : Root) (path : Path) (value : bytes) :
    option error := None.

(** [SignatureProof.VerifyNonMembership] *)
Definition SignatureProof_VerifyNonMembership
    (proof : SignatureProof) (root : Root) (path : Path) : option error := None.

(** The source asserts that [SignatureProof] implements [exported.Proof]. *)
Global Instance SignatureProof_Proof : Proof Root Path SignatureProof := {|
  GetCommitmentType _ := Signature;
  VerifyMembership := SignatureProof_VerifyMembership;
  VerifyNonMembership := SignatureProof_VerifyNonMembership;
  IsEmpty := SignatureProof_IsEmpty;
  ValidateBasic := SignatureProof_ValidateBasic;
|}.

End SignatureProof.

End Commitment.

(** * x/ibc/07-tendermint: misbehaviour *)
Module Tendermint.

(** ** What the function uses from other packages *)

(** Tendermint's types and functions ([tmtypes], [tmproto], [tmmath]), and
    the evidence accessor declared next to the [Evidence] type. *)
Class Externals := {
  (** the error values of the Tendermint library *)
  ExtError : Type;
  ValidatorSetProto : Type;
  SignedHeaderProto : Type;
  ValidatorSet : Type;
  SignedHeader : Type;
  Commit : Type;
  BlockID : Type;
  (** the client's trust-level fraction and Tendermint's *)
  Fraction : Type;
  TmFraction : Type;
  ToTendermint : Fraction → TmFraction;
  (** [tmtypes.ValidatorSetFromProto] *)
  ValidatorSetFromProto : ValidatorSetProto → ExtError + ValidatorSet;
  (** [tmtypes.SignedHeaderFromProto] *)
  SignedHeaderFromProto : SignedHeaderProto → ExtError + SignedHeader;
  (** the fields [Height] and [Commit] of a signed header, [BlockID] of a
      commit *)
  SignedHeader_Height : SignedHeader → Z;
  SignedHeader_Commit : SignedHeader → Commit;
  Commit_BlockID : Commit → BlockID;
  (** [ValidatorSet.VerifyCommitTrusting] *)
  VerifyCommitTrusting :
    ValidatorSet → string → BlockID → Z → Commit → TmFraction → option ExtError;
}.

(** ** Integers and time *)

(** [uint64(h)] for a signed 64-bit [h]. *)
Definition uint64 (h : Z) : Z := h mod 2 ^ 64.

(** [time.Duration]: signed 64-bit nanoseconds. *)
Definition minDuration : Z := - 2 ^ 63.
Definition maxDuration : Z := 2 ^ 63 - 1.

(** [time.Time.Sub] on instants counted in nanoseconds (wall-clock readings,
    as block times and stored timestamps are): the difference, saturated to
    the range of a [Duration]. *)
Definition Time_Sub (t u : Z) : Z :=
  let d := t - u in
  if d <? minDuration then minDuration
  else if maxDuration <? d then maxDuration
  else d.

Section WithExternals.
Context `{Externals}.

(** ** Errors *)

(** The sentinels: [clienttypes.ErrInvalidClientType],
    [clienttypes.ErrInvalidEvidence], [sdkerrors.ErrInvalidHeight],
    [types.ErrUnbondingPeriodExpired]. *)
Inductive ErrKind :=
  | ErrInvalidClientType
  | ErrInvalidEvidence
  | ErrInvalidHeight
  | ErrUnbondingPeriodExpired.

(** Arguments of a format string. *)
Inductive Arg :=
  | ArgUint64 (x : Z)
  | ArgInt64 (x : Z)
  | ArgDuration (d : Z)
  | ArgError (e : ExtError).

(** [sdkerrors.Wrap(parent, description)]: an error whose kind (what
    [errors.Is] sees) is [parent]; the description is either a literal, a
    formatted text ([Wrapf]), or the text [err.Error()] of another error. *)
Inductive error :=
  | Wrap (parent : ErrKind) (description : Description)
with Description :=
  | Literal (s : string)
  | Sprintf (format : string) (args : list Arg)
  | ErrorText (e : error)
  | ExtErrorText (e : ExtError).

Definition Wrapf (parent : ErrKind) (format : string) (args : list Arg) : error :=
  Wrap parent (Sprintf format args).

(** The kind of an error. *)
Definition kind (e : error) : ErrKind :=
  match e with Wrap k _ => k end.

(** ** The data model *)

(** Modelled from the spec: the Tendermint [ClientState] is declared outside
    the sources at hand; it has an identifier, a trust-level fraction, an
    unbonding period and a frozen height, where 0 means not frozen. *)
Record ClientState := {
  ID : string;
  TrustLevel : Fraction;
  UnbondingPeriod : Z;
  FrozenHeight : Z;
}.

(** Modelled from the spec: [ClientState.IsFrozen], a frozen height of 0
    means the client is not frozen. *)
Definition IsFrozen (cs : ClientState) : bool :=
  negb (FrozenHeight cs =? 0).

(** Modelled from the spec: the Tendermint [ConsensusState], with its
    timestamp and validator set snapshot (in wire form). *)
Record ConsensusState := {
  Timestamp : Z;
  ValidatorSet_ : ValidatorSetProto;
}.

(** Modelled from the spec: a header of the evidence, wrapping a signed
    header in wire form. *)
Record Header := { SignedHeader_ : SignedHeaderProto }.

(** Modelled from the spec: Tendermint [Evidence], two conflicting headers,
    the chain identifier and the claimed height, which is what
    [Evidence.GetHeight] returns (a signed 64-bit integer). *)
Record Evidence := {
  ClientID : string;
  ChainID : string;
  Header1 : Header;
  Header2 : Header;
  Height : Z;
}.

(** A value of the interface [clientexported.ClientState]: the Tendermint
    client state, or anything else (another client type, or nil). *)
Inductive ClientStateI :=
  | TmClientState (cs : ClientState)
  | OtherClientState (clientType : string).

(** A value of the interface [clientexported.ConsensusState]. *)
Inductive ConsensusStateI :=
  | TmConsensusState (cs : ConsensusState)
  | OtherConsensusState (clientType : string).

(** A value of the interface [clientexported.Misbehaviour]: Tendermint
    evidence, evidence of another client type with the height its
    [GetHeight] returns, or nil. *)
Inductive MisbehaviourI :=
  | TmEvidence (ev : Evidence)
  | OtherMisbehaviour (clientType : string) (height : Z)
  | NilMisbehaviour.

(** [misbehaviour.GetHeight()]; calling it on nil panics. *)
Definition GetHeight (m : MisbehaviourI) : option Z :=
  match m with
  | TmEvidence ev => Some (Height ev)
  | OtherMisbehaviour _ h => Some h
  | NilMisbehaviour => None
  end.

(** ** The check *)

(** [checkMisbehaviour] *)
Definition checkMisbehaviour
    (clientState : ClientState) (consensusState : ConsensusState)
    (evidence : Evidence) (height : Z) (currentTimestamp : Z) : option error :=
  if uint64 (Height evidence) <? height then
    Some (Wrapf ErrInvalidHeight
            "height > evidence header height (%d > %d)"
            [ArgUint64 height; ArgInt64 (Height evidence)])
  else if UnbondingPeriod clientState <=?
          Time_Sub currentTimestamp (Timestamp consensusState) then
    Some (Wrapf ErrUnbondingPeriodExpired
            "current timestamp minus the latest consensus state timestamp is greater than or equal to the unbonding period (%s >= %s)"
            [ArgDuration (Time_Sub currentTimestamp (Timestamp consensusState));
             ArgDuration (UnbondingPeriod clientState)])
  else
    match ValidatorSetFromProto (ValidatorSet_ consensusState) with
    | inl err => Some (Wrap ErrInvalidEvidence (ExtErrorText err))
    | inr valset =>
    match SignedHeaderFromProto (SignedHeader_ (Header1 evidence)) with
    | inl err =>
        Some (Wrapf ErrInvalidEvidence "invalid signed header 1: %s" [ArgError err])
    | inr signedHeader1 =>
    match SignedHeaderFromProto (SignedHeader_ (Header2 evidence)) with
    | inl err =>
        Some (Wrapf ErrInvalidEvidence "invalid signed header 2: %s" [ArgError err])
    | inr signedHeader2 =>
    match VerifyCommitTrusting valset (ChainID evidence)
            (Commit_BlockID (SignedHeader_Commit signedHeader1))
            (SignedHeader_Height signedHeader1)
            (SignedHeader_Commit signedHeader1)
            (ToTendermint (TrustLevel clientState)) with
    | Some err =>
        Some (Wrapf ErrInvalidEvidence
                "validator set in header 1 has too much change from last known validator set: %v"
                [ArgError err])
    | None =>
    match VerifyCommitTrusting valset (ChainID evidence)
            (Commit_BlockID (SignedHeader_Commit signedHeader2))
            (SignedHeader_Height signedHeader2)
            (SignedHeader_Commit signedHeader2)
            (ToTendermint (TrustLevel clientState)) with
    | Some err =>
        Some (Wrapf ErrInvalidEvidence
                "validator set in header 2 has too much change from last known validator set: %v"
                [ArgError err])
    | None => None
    end end end end end.

(** The guard of the first check after the client-state cast:
    [tmClientState.IsFrozen() && tmClientState.FrozenHeight <=
    uint64(misbehaviour.GetHeight())].  [&&] evaluates its right operand,
    and so calls [GetHeight], only for a frozen client. *)
Definition alreadyFrozen (tmClientState : ClientState) (misbehaviour : MisbehaviourI) :
    option bool :=
  if IsFrozen tmClientState then
    h ← GetHeight misbehaviour;
    Some (FrozenHeight tmClientState <=? uint64 h)
  else Some false.

(** [CheckMisbehaviourAndUpdateState] *)
Definition CheckMisbehaviourAndUpdateState
    (clientState : ClientStateI) (consensusState : ConsensusStateI)
    (misbehaviour : MisbehaviourI) (height : Z) (currentTimestamp : Z) :
    outcome ClientStateI error :=
  match clientState with
  | OtherClientState _ =>
      Err (Wrap ErrInvalidClientType (Literal "client state type is not Tendermint"))
  | TmClientState tmClientState =>
  match alreadyFrozen tmClientState misbehaviour with
  | None => Panic
  | Some true =>
      Err (Wrapf ErrInvalidEvidence
             "client is already frozen at earlier height %d than misbehaviour height %d"
             [ArgUint64 (FrozenHeight tmClientState);
              ArgInt64 (default 0 (GetHeight misbehaviour))])
  | Some false =>
  match consensusState with
  | OtherConsensusState _ =>
      Err (Wrap ErrInvalidClientType (Literal "consensus state is not Tendermint"))
  | TmConsensusState tmConsensusState =>
  match misbehaviour with
  | OtherMisbehaviour _ _ | NilMisbehaviour =>
      Err (Wrap ErrInvalidClientType (Literal "evidence type is not Tendermint"))
  | TmEvidence tmEvidence =>
  match checkMisbehaviour tmClientState tmConsensusState tmEvidence
          height currentTimestamp with
  | Some err => Err (Wrap ErrInvalidEvidence (ErrorText err))
  | None =>
      Ok (TmClientState
            {| ID := ID tmClientState;
               TrustLevel := TrustLevel tmClientState;
               UnbondingPeriod := UnbondingPeriod tmClientState;
               FrozenHeight := uint64 (Height tmEvidence) |})
  end end end end end.

(** ** Vocabulary of the statements *)

(** The evidence height the checks compare with. *)
Definition evidenceHeight (m : MisbehaviourI) : option Z := uint64 <$> GetHeight m.

(** The client is frozen at a height at or below the evidence height. *)
Definition frozenAtOrBelow (cs : ClientState) (m : MisbehaviourI) : Prop :=
  IsFrozen cs = true ∧ ∃ h, evidenceHeight m = Some h ∧ FrozenHeight cs ≤ h.

(** The client is active, or frozen strictly above the evidence height. *)
Definition notFrozenAtOrBelow (cs : ClientState) (m : MisbehaviourI) : Prop :=
  IsFrozen cs = false ∨ ∃ h, evidenceHeight m = Some h ∧ h < FrozenHeight cs.

(** The error [checkMisbehaviour] returns for expired evidence. *)
Definition expired (cs : ClientState) (cons : ConsensusState) (now : Z) : error :=
  Wrapf ErrUnbondingPeriodExpired
    "current timestamp minus the latest consensus state timestamp is greater than or equal to the unbonding period (%s >= %s)"
    [ArgDuration (Time_Sub now (Timestamp cons)); ArgDuration (UnbondingPeriod cs)].




(** An error reports kind [k] when it has that kind, or when its description
    is the text of an error that reports [k]. *)
Fixpoint reports (k : ErrKind) (e : error) : Prop :=
  match e with
  | Wrap k' d =>
      k' = k ∨ match d with ErrorText e' => reports k e' | _ => False end
  end.

End WithExternals.

End Tendermint.

(** * x/ibc/03-connection: message handlers *)
Module Connection.

(** ** Events *)

(** [sdk.Attribute] and [sdk.Event] *)
Record Attribute := NewAttribute { AttrKey : string; AttrValue : string }.
Record Event := NewEvent { Type_ : string; Attributes : list Attribute }.

(** Modelled from the spec: the event type and attribute key constants are
    declared outside the sources at hand; a successful step is reported as a
    structured record, followed by a generic marker of the message. *)
Class EventNames := {
  EventTypeConnectionOpenInit : string;
  EventTypeConnectionOpenTry : string;
  EventTypeConnectionOpenAck : string;
  EventTypeConnectionOpenConfirm : string;
  AttributeKeyConnectionID : string;
  AttributeKeyClientID : string;
  AttributeKeyCounterpartyClientID : string;
  AttributeValueCategory : string;
  (** [sdk.EventTypeMessage] and [sdk.AttributeKeyModule] *)
  EventTypeMessage : string;
  AttributeKeyModule : string;
}.

(** [sdk.Result], with the events in the form [ToABCIEvents] gives them
    (the same types and attributes). *)
Record Result := { Events : list Event }.

(** ** Proof envelopes *)

(** The dynamic value an envelope caches ([interface{}]): a value that
    implements [commitmentexported.Proof], a value that does not, or nil. *)
Inductive Cached (Proof : Type) :=
  | CachedProof (p : Proof)
  | CachedOther
  | CachedNil.
Arguments CachedProof {Proof} p.
Arguments CachedOther {Proof}.
Arguments CachedNil {Proof}.

(** [cdctypes.Any]: type tag, serialized payload, and the cached value. *)
Record Any (Proof : Type) := {
  TypeUrl : string;
  Value : bytes;
  cachedValue : Cached Proof;
}.
Arguments TypeUrl {Proof} a.
Arguments Value {Proof} a.
Arguments cachedValue {Proof} a.

(** [Any.GetCachedValue] *)
Definition GetCachedValue {Proof} (any : Any Proof) : Cached Proof := cachedValue any.

(** The type assertion [v.(commitmentexported.Proof)] in its one-result
    form: it panics ([None]) unless [v] holds a proof. *)
Definition assertProof {Proof} (v : Cached Proof) : option Proof :=
  match v with
  | CachedProof p => Some p
  | CachedOther | CachedNil => None
  end.

(** ** Messages *)

(** Modelled from the spec: the counterparty of a connection end, with its
    client identifier, connection identifier and prefix. *)
Record Counterparty := {
  Counterparty_ClientID : string;
  Counterparty_ConnectionID : string;
  Counterparty_Prefix : bytes;
}.

(** Modelled from the spec: the four wire messages, fields as listed there. *)
Module MsgConnectionOpenInit.
Record t := {
  ConnectionID : string;
  ClientID : string;
  Counterparty_ : Counterparty;
}.
End MsgConnectionOpenInit.

Module MsgConnectionOpenTry.
Record t (Proof : Type) := {
  ConnectionID : string;
  Counterparty_ : Counterparty;
  ClientID : string;
  CounterpartyVersions : list string;
  ProofInit : Any Proof;
  ProofConsensus : Any Proof;
  ProofHeight : Z;
  ConsensusHeight : Z;
}.
Arguments ConnectionID {Proof} _.
Arguments Counterparty_ {Proof} _.
Arguments ClientID {Proof} _.
Arguments CounterpartyVersions {Proof} _.
Arguments ProofInit {Proof} _.
Arguments ProofConsensus {Proof} _.
Arguments ProofHeight {Proof} _.
Arguments ConsensusHeight {Proof} _.
End MsgConnectionOpenTry.

Module MsgConnectionOpenAck.
Record t (Proof : Type) := {
  ConnectionID : string;
  Version : string;
  ProofTry : Any Proof;
  ProofConsensus : Any Proof;
  ProofHeight : Z;
  ConsensusHeight : Z;
}.
Arguments ConnectionID {Proof} _.
Arguments Version {Proof} _.
Arguments ProofTry {Proof} _.
Arguments ProofConsensus {Proof} _.
Arguments ProofHeight {Proof} _.
Arguments ConsensusHeight {Proof} _.
End MsgConnectionOpenAck.

Module MsgConnectionOpenConfirm.
Record t (Proof : Type) := {
  ConnectionID : string;
  ProofAck : Any Proof;
  ProofHeight : Z;
}.
Arguments ConnectionID {Proof} _.
Arguments ProofAck {Proof} _.
Arguments ProofHeight {Proof} _.
End MsgConnectionOpenConfirm.

(** ** Context and keeper *)

(** [sdk.Context], as far as a handler and its keeper act on it: the store
    behind the context and the events of its event manager.  Both are
    reached through pointers, so what the keeper does to them is visible to
    the handler: a call returns the context it leaves behind. *)
Record Context (Store : Type) := {
  store : Store;
  events : list Event;
}.
Arguments store {Store} c.
Arguments events {Store} c.

(** [ctx.EventManager().EmitEvents(evs)] *)
Definition EmitEvents {Store} (ctx : Context Store) (evs : list Event) : Context Store :=
  {| store := store ctx; events := events ctx ++ evs |}.

(** The connection keeper, declared outside the sources at hand: the four
    handshake steps, each returning the context it leaves and its error. *)
Class Keeper := {
  Store : Type;
  KError : Type;
  (** values implementing [commitmentexported.Proof] *)
  Proof : Type;
  ConnOpenInit :
    Context Store → string → string → Counterparty →
    Context Store * option KError;
  ConnOpenTry :
    Context Store → string → Counterparty → string → list string →
    Proof → Proof → Z → Z → Context Store * option KError;
  ConnOpenAck :
    Context Store → string → string → Proof → Proof → Z → Z →
    Context Store * option KError;
  ConnOpenConfirm :
    Context Store → string → Proof → Z → Context Store * option KError;
}.

Section Handlers.
Context `{EventNames} `{Keeper}.

(** What a handler call leaves and returns. *)
Definition handled : Type := Context Store * outcome Result KError.

(** The marker event every handler emits after its own. *)
Definition messageEvent : Event :=
  NewEvent EventTypeMessage [NewAttribute AttributeKeyModule AttributeValueCategory].

(** The common end of the handlers: emit, then return the events of the
    manager. *)
Definition emitAndReturn (ctx : Context Store) (evs : list Event) : handled :=
  let ctx' := EmitEvents ctx evs in
  (ctx', Ok {| Events := events ctx' |}).

(** [HandleMsgConnectionOpenInit] *)
Definition HandleMsgConnectionOpenInit
    (ctx : Context Store) (msg : MsgConnectionOpenInit.t) : handled :=
  match ConnOpenInit ctx (MsgConnectionOpenInit.ConnectionID msg)
          (MsgConnectionOpenInit.ClientID msg)
          (MsgConnectionOpenInit.Counterparty_ msg) with
  | (ctx', Some err) => (ctx', Err err)
  | (ctx', None) =>
      emitAndReturn ctx'
        [NewEvent EventTypeConnectionOpenInit
           [NewAttribute AttributeKeyConnectionID (MsgConnectionOpenInit.ConnectionID msg);
            NewAttribute AttributeKeyClientID (MsgConnectionOpenInit.ClientID msg);
            NewAttribute AttributeKeyCounterpartyClientID
              (Counterparty_ClientID (MsgConnectionOpenInit.Counterparty_ msg))];
         messageEvent]
  end.

(** [HandleMsgConnectionOpenTry] *)
Definition HandleMsgConnectionOpenTry
    (ctx : Context Store) (msg : MsgConnectionOpenTry.t Proof) : handled :=
  match assertProof (GetCachedValue (MsgConnectionOpenTry.ProofInit msg)) with
  | None => (ctx, Panic)
  | Some proofInit =>
  match assertProof (GetCachedValue (MsgConnectionOpenTry.ProofConsensus msg)) with
  | None => (ctx, Panic)
  | Some proofConsensus =>
  match ConnOpenTry ctx (MsgConnectionOpenTry.ConnectionID msg)
          (MsgConnectionOpenTry.Counterparty_ msg)
          (MsgConnectionOpenTry.ClientID msg)
          (MsgConnectionOpenTry.CounterpartyVersions msg)
          proofInit proofConsensus
          (MsgConnectionOpenTry.ProofHeight msg)
          (MsgConnectionOpenTry.ConsensusHeight msg) with
  | (ctx', Some err) => (ctx', Err err)
  | (ctx', None) =>
      emitAndReturn ctx'
        [NewEvent EventTypeConnectionOpenTry
           [NewAttribute AttributeKeyConnectionID (MsgConnectionOpenTry.ConnectionID msg);
            NewAttribute AttributeKeyClientID (MsgConnectionOpenTry.ClientID msg);
            NewAttribute AttributeKeyCounterpartyClientID
              (Counterparty_ClientID (MsgConnectionOpenTry.Counterparty_ msg))];
         messageEvent]
  end end end.

(** [HandleMsgConnectionOpenAck] *)
Definition HandleMsgConnectionOpenAck
    (ctx : Context Store) (msg : MsgConnectionOpenAck.t Proof) : handled :=
  match assertProof (GetCachedValue (MsgConnectionOpenAck.ProofTry msg)) with
  | None => (ctx, Panic)
  | Some proofTry =>
  match assertProof (GetCachedValue (MsgConnectionOpenAck.ProofConsensus msg)) with
  | None => (ctx, Panic)
  | Some proofConsensus =>
  match ConnOpenAck ctx (MsgConnectionOpenAck.ConnectionID msg)
          (MsgConnectionOpenAck.Version msg)
          proofTry proofConsensus
          (MsgConnectionOpenAck.ProofHeight msg)
          (MsgConnectionOpenAck.ConsensusHeight msg) with
  | (ctx', Some err) => (ctx', Err err)
  | (ctx', None) =>
      emitAndReturn ctx'
        [NewEvent EventTypeConnectionOpenAck
           [NewAttribute AttributeKeyConnectionID (MsgConnectionOpenAck.ConnectionID msg)];
         messageEvent]
  end end end.

(** [HandleMsgConnectionOpenConfirm] *)
Definition HandleMsgConnectionOpenConfirm
    (ctx : Context Store) (msg : MsgConnectionOpenConfirm.t Proof) : handled :=
  match assertProof (GetCachedValue (MsgConnectionOpenConfirm.ProofAck msg)) with
  | None => (ctx, Panic)
  | Some proofAck =>
  match ConnOpenConfirm ctx (MsgConnectionOpenConfirm.ConnectionID msg)
          proofAck (MsgConnectionOpenConfirm.ProofHeight msg) with
  | (ctx', Some err) => (ctx', Err err)
  | (ctx', None) =>
      emitAndReturn ctx'
        [NewEvent EventTypeConnectionOpenConfirm
           [NewAttribute AttributeKeyConnectionID (MsgConnectionOpenConfirm.ConnectionID msg)];
         messageEvent]
  end end.

(** ** Vocabulary of the statements *)

(** Every envelope of a message caches a proof. *)
Definition holdsProof (any : Any Proof) : Prop := is_Some (assertProof (GetCachedValue any)).

(** An event carries an attribute of key [k]. *)
Definition carries (k : string) (ev : Event) : Prop :=
  ∃ v, NewAttribute k v ∈ Attributes ev.

End Handlers.

End Connection.

(** * Stand-ins for the external libraries

    Concrete instances on which the definitions above run; the statements
    below hold for every instance, these show that instances exist and serve
    to evaluate the code on sample inputs. *)
Module Sample.

(** A 32-byte digest: the input cut or zero-padded to 32 bytes (not a
    cryptographic hash). *)
Definition digest (bz : bytes) : bytes := take 32 (bz ++ replicate 32 x00).

Lemma digest_Size (bz : bytes) : length (digest bz) = 32%nat.
Proof.
  unfold digest. rewrite length_take, length_app, length_replicate. lia.
Qed.

Definition hashing : Hashing := {|
  tmhash_Sum := digest;
  tmhash_Size := digest_Size;
  SimpleHashFromByteSlices items := digest (concat items);
|}.

(** A validator set as a list of voting powers by validator index; a signed
    header as its height and the indices that signed its commit.  Decoding
    rejects an empty validator set and a negative height; a commit verifies
    when the power that signed it exceeds the trust-level fraction of the
    total power. *)
Record signedHeader := { sh_height : Z; sh_signers : list nat }.

Definition power (valset : list Z) (signers : list nat) : Z :=
  foldr Z.add 0 ((λ i, default 0 (valset !! i)) <$> signers).

Definition verifyCommitTrusting
    (valset : list Z) (chainID : string) (blockID : unit) (h : Z)
    (commit : list nat) (trustLevel : Z * Z) : option string :=
  if foldr Z.add 0 valset * trustLevel.1 <? power valset commit * trustLevel.2
  then None else Some "insufficient voting power"%string.

Definition externals : Tendermint.Externals := {|
  Tendermint.ExtError := string;
  Tendermint.ValidatorSetProto := list Z;
  Tendermint.SignedHeaderProto := signedHeader;
  Tendermint.ValidatorSet := list Z;
  Tendermint.SignedHeader := signedHeader;
  Tendermint.Commit := list nat;
  Tendermint.BlockID := unit;
  Tendermint.Fraction := Z * Z;
  Tendermint.TmFraction := Z * Z;
  Tendermint.ToTendermint f := f;
  Tendermint.ValidatorSetFromProto vs :=
    match vs with [] => inl "empty validator set"%string | _ => inr vs end;
  Tendermint.SignedHeaderFromProto sh :=
    if sh_height sh <? 0 then inl "negative height"%string else inr sh;
  Tendermint.SignedHeader_Height := sh_height;
  Tendermint.SignedHeader_Commit := sh_signers;
  Tendermint.Commit_BlockID _ := ();
  Tendermint.VerifyCommitTrusting := verifyCommitTrusting;
|}.

#[local] Existing Instance externals.

(** A client of trust level 1/3 and an unbonding period of 100 ns, frozen
    at [frozen] (0: active); a consensus state stamped 10 with three
    validators of power 10; evidence at height [h] whose first header is
    signed by validators 0 and 1, the second by validators 1 and 2. *)
Definition clientState (frozen : Z) : @Tendermint.ClientState externals :=
  {| Tendermint.ID := "client"; Tendermint.TrustLevel := (1, 3);
     Tendermint.UnbondingPeriod := 100; Tendermint.FrozenHeight := frozen |}.

Definition consensusState : @Tendermint.ConsensusState externals :=
  {| Tendermint.Timestamp := 10; Tendermint.ValidatorSet_ := [10; 10; 10] |}.

Definition evidenceClaiming (claimed h : Z) : @Tendermint.Evidence externals :=
  {| Tendermint.ClientID := "client"; Tendermint.ChainID := "chain";
     Tendermint.Header1 :=
       {| Tendermint.SignedHeader_ := {| sh_height := h; sh_signers := [0; 1]%nat |} |};
     Tendermint.Header2 :=
       {| Tendermint.SignedHeader_ := {| sh_height := h; sh_signers := [1; 2]%nat |} |};
     Tendermint.Height := claimed |}.

Definition evidence (h : Z) : @Tendermint.Evidence externals := evidenceClaiming h h.

(** The names of events and attributes. *)
Definition eventNames : Connection.EventNames := {|
  Connection.EventTypeConnectionOpenInit := "connection_open_init";
  Connection.EventTypeConnectionOpenTry := "connection_open_try";
  Connection.EventTypeConnectionOpenAck := "connection_open_ack";
  Connection.EventTypeConnectionOpenConfirm := "connection_open_confirm";
  Connection.AttributeKeyConnectionID := "connection_id";
  Connection.AttributeKeyClientID := "client_id";
  Connection.AttributeKeyCounterpartyClientID := "counterparty_client_id";
  Connection.AttributeValueCategory := "ibc_connection";
  Connection.EventTypeMessage := "message";
  Connection.AttributeKeyModule := "module";
|}.

(** A keeper over the list of connection identifiers it has seen, taking
    signature proofs: a step fails on a proof that does not pass
    [ValidateBasic], and otherwise records the connection. *)
Definition record_ (connectionID : string)
    (proofs : list Commitment.SignatureProof)
    (ctx : Connection.Context (list string)) :
    Connection.Context (list string) * option string :=
  if forallb (λ p, negb (Commitment.SignatureProof_IsEmpty p)) proofs
  then ({| Connection.store := connectionID :: Connection.store ctx;
           Connection.events := Connection.events ctx |}, None)
  else (ctx, Some "invalid proof"%string).

Definition keeper : Connection.Keeper := {|
  Connection.Store := list string;
  Connection.KError := string;
  Connection.Proof := Commitment.SignatureProof;
  Connection.ConnOpenInit ctx connectionID _ _ := record_ connectionID [] ctx;
  Connection.ConnOpenTry ctx connectionID _ _ _ proofInit proofConsensus _ _ :=
    record_ connectionID [proofInit; proofConsensus] ctx;
  Connection.ConnOpenAck ctx connectionID _ proofTry proofConsensus _ _ :=
    record_ connectionID [proofTry; proofConsensus] ctx;
  Connection.ConnOpenConfirm ctx connectionID proofAck _ :=
    record_ connectionID [proofAck] ctx;
|}.

(** An envelope holding the signature proof [sig], and one that was never
    unpacked. *)
Definition packed (sig : bytes) : Connection.Any Commitment.SignatureProof :=
  {| Connection.TypeUrl := "/ibc.commitment.SignatureProof";
     Connection.Value := sig;
     Connection.cachedValue :=
       Connection.CachedProof {| Commitment.Signature_ := sig |} |}.

Definition unpacked (sig : bytes) : Connection.Any Commitment.SignatureProof :=
  {| Connection.TypeUrl := "/ibc.commitment.SignatureProof";
     Connection.Value := sig;
     Connection.cachedValue := Connection.CachedNil |}.

Definition emptyContext : Connection.Context (list string) :=
  {| Connection.store := []; Connection.events := [] |}.

Definition openTry (proofInit proofConsensus : Connection.Any Commitment.SignatureProof) :
    Connection.MsgConnectionOpenTry.t Commitment.SignatureProof :=
  {| Connection.MsgConnectionOpenTry.ConnectionID := "c1";
     Connection.MsgConnectionOpenTry.Counterparty_ :=
       {| Connection.Counterparty_ClientID := "clientA";
          Connection.Counterparty_ConnectionID := "c0";
          Connection.Counterparty_Prefix := bytes_of_string "ibc" |};
     Connection.MsgConnectionOpenTry.ClientID := "clientB";
     Connection.MsgConnectionOpenTry.CounterpartyVersions := ["1.0.0"%string];
     Connection.MsgConnectionOpenTry.ProofInit := proofInit;
     Connection.MsgConnectionOpenTry.ProofConsensus := proofConsensus;
     Connection.MsgConnectionOpenTry.ProofHeight := 10;
     Connection.MsgConnectionOpenTry.ConsensusHeight := 9 |}.

Definition openAck (proofTry proofConsensus : Connection.Any Commitment.SignatureProof) :
    Connection.MsgConnectionOpenAck.t Commitment.SignatureProof :=
  {| Connection.MsgConnectionOpenAck.ConnectionID := "c1";
     Connection.MsgConnectionOpenAck.Version := "1.0.0";
     Connection.MsgConnectionOpenAck.ProofTry := proofTry;
     Connection.MsgConnectionOpenAck.ProofConsensus := proofConsensus;
     Connection.MsgConnectionOpenAck.ProofHeight := 10;
     Connection.MsgConnectionOpenAck.ConsensusHeight := 9 |}.

End Sample.

(** * Properties *)

(** ** Bytes and their order *)

Section BytesFacts.

Lemma to_N_inj (x y : byte) : Byte.to_N x = Byte.to_N y → x = y.
Proof.
  intros E. apply (inj Some). by rewrite <-!Byte.of_to_N, E.
Qed.

Lemma Z_of_byte_of_Z (x : Z) : Z_of_byte (byte_of_Z x) = x mod 256.
Proof.
  unfold Z_of_byte, byte_of_Z.
  assert (Hr : 0 ≤ x mod 256 < 256) by (apply Z.mod_pos_bound; lia).
  destruct (Byte.of_N (Z.to_N (x mod 256))) as [b|] eqn:E; simpl.
  - apply Byte.to_of_N in E. rewrite E. lia.
  - apply Byte.of_N_None_iff in E. lia.
Qed.

Lemma Z_of_byte_range (b : byte) : 0 ≤ Z_of_byte b < 256.
Proof.
  unfold Z_of_byte. pose proof (Byte.to_N_bounded b). lia.
Qed.

Lemma bytes_Compare_refl (a : bytes) : bytes_Compare a a = Eq.
Proof.
  induction a as [|x a IH]; simpl; [done|]. by rewrite N.compare_refl.
Qed.

Lemma bytes_Compare_Eq (a b : bytes) : bytes_Compare a b = Eq → a = b.
Proof.
  revert b. induction a as [|x a IH]; intros [|y b]; simpl; try done.
  destruct (N.compare_spec (Byte.to_N x) (Byte.to_N y)) as [E| |]; try done.
  intros Hab. f_equal; [by apply to_N_inj | by apply IH].
Qed.

Lemma bytes_Compare_opp (a b : bytes) :
  bytes_Compare b a = CompOpp (bytes_Compare a b).
Proof.
  revert b. induction a as [|x a IH]; intros [|y b]; simpl; try done.
  rewrite (N.compare_antisym (Byte.to_N x) (Byte.to_N y)).
  destruct (Byte.to_N x ?= Byte.to_N y)%N; simpl; auto.
Qed.

Lemma bytes_Compare_Lt_trans (a b c : bytes) :
  bytes_Compare a b = Lt → bytes_Compare b c = Lt → bytes_Compare a c = Lt.
Proof.
  revert b c. induction a as [|x a IH]; intros [|y b] [|z c]; simpl; try done.
  destruct (N.compare_spec (Byte.to_N x) (Byte.to_N y)) as [Exy|Lxy|Gxy];
    destruct (N.compare_spec (Byte.to_N y) (Byte.to_N z)) as [Eyz|Lyz|Gyz];
    try done; intros Hab Hbc.
  - rewrite Exy, Eyz, N.compare_refl. eauto.
  - rewrite Exy. by apply N.compare_lt_iff in Lyz as ->.
  - rewrite <-Eyz. by apply N.compare_lt_iff in Lxy as ->.
  - assert (Byte.to_N x < Byte.to_N z)%N as Hxz by lia.
    by apply N.compare_lt_iff in Hxz as ->.
Qed.

Lemma bytes_Compare_Gt_Lt (a b : bytes) :
  bytes_Compare a b = Gt ↔ bytes_Compare b a = Lt.
Proof.
  rewrite (bytes_Compare_opp a b). destruct (bytes_Compare a b); naive_solver.
Qed.

End BytesFacts.

(** ** The order of [kv.Pairs.Sort] *)

Section PairOrder.
Import Rootmulti.

Lemma Less_irrefl (p : Pair) : Less p p = false.
Proof. unfold Less. by rewrite !bytes_Compare_refl. Qed.

Lemma Less_asym (p q : Pair) : Less p q = true → Less q p = false.
Proof.
  unfold Less.
  rewrite (bytes_Compare_opp (Key p) (Key q)), (bytes_Compare_opp (Value p) (Value q)).
  destruct (bytes_Compare (Key p) (Key q)), (bytes_Compare (Value p) (Value q)); naive_solver.
Qed.

Lemma Less_trans (p q r : Pair) : Less p q = true → Less q r = true → Less p r = true.
Proof.
  unfold Less.
  destruct (bytes_Compare (Key p) (Key q)) eqn:Kpq; try done;
    destruct (bytes_Compare (Key q) (Key r)) eqn:Kqr; try done.
  - apply bytes_Compare_Eq in Kpq, Kqr. rewrite Kpq, Kqr, bytes_Compare_refl.
    destruct (bytes_Compare (Value p) (Value q)) eqn:Vpq; try done.
    destruct (bytes_Compare (Value q) (Value r)) eqn:Vqr; try done.
    by rewrite (bytes_Compare_Lt_trans _ _ _ Vpq Vqr).
  - apply bytes_Compare_Eq in Kpq. by rewrite Kpq, Kqr.
  - apply bytes_Compare_Eq in Kqr. by rewrite <-Kqr, Kpq.
  - by rewrite (bytes_Compare_Lt_trans _ _ _ Kpq Kqr).
Qed.

(** Two pairs neither of which is [Less] than the other are the same pair:
    the sort has no ties to break. *)
Lemma Less_neither (p q : Pair) : Less p q = false → Less q p = false → p = q.
Proof.
  unfold Less. destruct p as [kp vp], q as [kq vq]; simpl.
  rewrite (bytes_Compare_opp kp kq), (bytes_Compare_opp vp vq).
  destruct (bytes_Compare kp kq) eqn:K; simpl; try done.
  destruct (bytes_Compare vp vq) eqn:V; simpl; try done.
  intros _ _. apply bytes_Compare_Eq in K, V. by subst.
Qed.

Global Instance pair_le_total : Total pair_le.
Proof.
  intros p q. unfold pair_le.
  destruct (Less q p) eqn:E; [right; by apply Less_asym | by left].
Qed.

Global Instance pair_le_trans : Transitive pair_le.
Proof.
  intros p q r. unfold pair_le. intros Hqp Hrq.
  destruct (Less r p) eqn:Hrp; [|done].
  destruct (Less q r) eqn:Hqr.
  - by rewrite (Less_trans _ _ _ Hqr Hrp) in Hqp.
  - assert (q = r) by (by apply Less_neither). subst. congruence.
Qed.

Global Instance pair_le_antisym : AntiSymm (=) pair_le.
Proof. intros p q Hpq Hqp. by apply Less_neither. Qed.

(** What [sort.Sort] guarantees determines its result: a permutation of the
    input in which no element is [Less] than its predecessor is the slice
    [Pairs_Sort] returns. *)
Lemma Sort_unique (l l' : Pairs) :
  l' ≡ₚ l → Sorted pair_le l' → l' = Pairs_Sort l.
Proof.
  intros Hp Hs. apply (Sorted_unique pair_le); [done| |].
  - apply Sorted_merge_sort; apply _.
  - unfold Pairs_Sort. by rewrite merge_sort_Permutation.
Qed.

Lemma Pairs_Sort_Sorted (l : Pairs) : Sorted pair_le (Pairs_Sort l).
Proof. apply Sorted_merge_sort; apply _. Qed.

Lemma Pairs_Sort_Permutation (l : Pairs) : Pairs_Sort l ≡ₚ l.
Proof. apply merge_sort_Permutation. Qed.

Lemma Pairs_Sort_perm (l l' : Pairs) : l ≡ₚ l' → Pairs_Sort l = Pairs_Sort l'.
Proof.
  intros Hp. apply Sort_unique; [|apply Pairs_Sort_Sorted].
  by rewrite Pairs_Sort_Permutation.
Qed.

Lemma pair_le_key_le (p q : Pair) : pair_le p q → key_le p q.
Proof.
  unfold pair_le, key_le, Less. rewrite (bytes_Compare_opp (Key p) (Key q)).
  destruct (bytes_Compare (Key p) (Key q)); simpl; done.
Qed.

Lemma Pairs_Sort_by_key (l : Pairs) : Sorted key_le (Pairs_Sort l).
Proof.
  pose proof (Pairs_Sort_Sorted l) as Hs.
  induction Hs as [|p l' Hs IH Hhd]; constructor; [done|].
  destruct Hhd; constructor. by apply pair_le_key_le.
Qed.

End PairOrder.

(** ** Length prefixes *)

Section Varint.
Import Rootmulti.

Lemma lor_128 (n : Z) : 0 ≤ n < 256 → Z.lor n 128 = n mod 128 + 128.
Proof.
  intros Hn.
  assert (Hall : forallb (λ i, Z.lor i 128 =? i mod 128 + 128) (seqZ 0 256) = true)
    by (vm_compute; reflexivity).
  rewrite forallb_forall in Hall.
  apply Z.eqb_eq, Hall, list_elem_of_In, elem_of_seqZ. lia.
Qed.

(** The byte the loop of [PutUvarint] writes for a value that continues. *)
Lemma continuation_byte (x : Z) :
  0 ≤ x → Z.lor (Z_of_byte (byte_of_Z x)) 128 = x mod 128 + 128.
Proof.
  intros Hx. rewrite Z_of_byte_of_Z.
  rewrite lor_128 by (apply Z.mod_pos_bound; lia).
  f_equal. Z.div_mod_to_equations. lia.
Qed.

Lemma div128_bound (n : nat) (x : Z) :
  0 ≤ x < 128 ^ Z.of_nat (S n) → 0 ≤ x / 128 < 128 ^ Z.of_nat n.
Proof.
  rewrite Nat2Z.inj_succ, Z.pow_succ_r by lia. intros Hx.
  split; [apply Z.div_pos; lia | apply Z.div_lt_upper_bound; lia].
Qed.

Lemma digits128_cons (fuel : nat) (x : Z) :
  ∃ d ds, digits128 (S fuel) x = d :: ds.
Proof. simpl. destruct (x <? 128); eauto. Qed.

Lemma PutUvarint_digits (cap : nat) (x : Z) :
  0 ≤ x < 128 ^ Z.of_nat (S cap) →
  PutUvarint (S cap) x = Some (byte_of_Z <$> continuation (digits128 (S cap) x)).
Proof.
  revert x. induction cap as [|cap IH]; intros x Hx.
  - simpl in *. destruct (Z.leb_spec 128 x), (Z.ltb_spec x 128); try lia. done.
  - change (PutUvarint (S (S cap)) x) with
      (if 128 <=? x
       then (byte_of_Z (Z.lor (Z_of_byte (byte_of_Z x)) 128) ::.) <$>
              PutUvarint (S cap) (Z.shiftr x 7)
       else Some [byte_of_Z x]).
    change (digits128 (S (S cap)) x) with
      (if x <? 128 then [x] else x mod 128 :: digits128 (S cap) (x / 128)).
    destruct (Z.leb_spec 128 x), (Z.ltb_spec x 128); try lia; [|done].
    rewrite Z.shiftr_div_pow2 by lia. change (2 ^ 7) with 128.
    rewrite IH.
    + destruct (digits128_cons cap (x / 128)) as (d & ds & ->).
      simpl. by rewrite continuation_byte by lia.
    + by apply div128_bound.
Qed.

(** More fuel than digits changes nothing. *)
Lemma digits128_fuel (n m : nat) (x : Z) :
  0 ≤ x < 128 ^ Z.of_nat (S n) → (n ≤ m)%nat →
  digits128 (S n) x = digits128 (S m) x.
Proof.
  revert m x. induction n as [|n IH]; intros m x Hx Hnm.
  - simpl in *. destruct (Z.ltb_spec x 128); [done|lia].
  - destruct m as [|m]; [lia|].
    change (digits128 (S (S n)) x) with
      (if x <? 128 then [x] else x mod 128 :: digits128 (S n) (x / 128)).
    change (digits128 (S (S m)) x) with
      (if x <? 128 then [x] else x mod 128 :: digits128 (S m) (x / 128)).
    destruct (x <? 128) eqn:E; [done|]. apply Z.ltb_ge in E.
    f_equal. apply IH; [by apply div128_bound|lia].
Qed.

(** On the lengths an eight-byte buffer can hold, [PutUvarint] writes the
    varint of the design document; on larger ones it panics. *)
Lemma PutUvarint_varint (x : Z) :
  0 ≤ x < 2 ^ 56 → PutUvarint 8 x = Some (varint x).
Proof.
  intros Hx. rewrite PutUvarint_digits by (change (128 ^ Z.of_nat 8) with (2 ^ 56); lia).
  unfold varint. do 3 f_equal. apply digits128_fuel; [|lia].
  change (128 ^ Z.of_nat 8) with (2 ^ 56). lia.
Qed.

Lemma PutUvarint_overflow (cap : nat) (x : Z) :
  128 ^ Z.of_nat cap ≤ x → PutUvarint cap x = None.
Proof.
  revert x. induction cap as [|cap IH]; intros x Hx; [done|].
  rewrite Nat2Z.inj_succ, Z.pow_succ_r in Hx by lia.
  assert (0 < 128 ^ Z.of_nat cap) by (apply Z.pow_pos_nonneg; lia).
  simpl. destruct (Z.leb_spec 128 x); [|lia].
  rewrite IH; [done|].
  rewrite Z.shiftr_div_pow2 by lia. change (2 ^ 7) with 128.
  apply Z.div_le_lower_bound; lia.
Qed.

(** A varint stands for the value it was made from. *)
Lemma varint_value_digits (fuel : nat) (x : Z) :
  0 ≤ x < 128 ^ Z.of_nat (S fuel) →
  varint_value (byte_of_Z <$> continuation (digits128 (S fuel) x)) = x.
Proof.
  revert x. induction fuel as [|fuel IH]; intros x Hx.
  - simpl in *. destruct (Z.ltb_spec x 128); [|lia]. simpl.
    rewrite Z_of_byte_of_Z, (Z.mod_small x 256), (Z.mod_small x 128); lia.
  - change (digits128 (S (S fuel)) x) with
      (if x <? 128 then [x] else x mod 128 :: digits128 (S fuel) (x / 128)).
    destruct (Z.ltb_spec x 128) as [Hlt|Hge].
    + simpl. rewrite Z_of_byte_of_Z, (Z.mod_small x 256), (Z.mod_small x 128); lia.
    + assert (Hq : 0 ≤ x / 128 < 128 ^ Z.of_nat (S fuel)) by (by apply div128_bound).
      specialize (IH _ Hq).
      destruct (digits128_cons fuel (x / 128)) as (d & ds & Hd).
      rewrite Hd in IH |- *.
      change (continuation (x mod 128 :: d :: ds))
        with (x mod 128 + 128 :: continuation (d :: ds)).
      rewrite fmap_cons. cbn [varint_value]. rewrite IH, Z_of_byte_of_Z.
      pose proof (Z.mod_pos_bound x 128 ltac:(lia)).
      rewrite (Z.mod_small (x mod 128 + 128) 256) by lia.
      rewrite <-(Z.mul_1_l 128) at 2. rewrite Z.mod_add, Z.mod_mod by lia.
      pose proof (Z.div_mod x 128 ltac:(lia)). lia.
Qed.

Lemma varint_value_varint (x : Z) : 0 ≤ x < 2 ^ 64 → varint_value (varint x) = x.
Proof.
  intros Hx. apply varint_value_digits.
  assert (2 ^ 64 ≤ 128 ^ Z.of_nat 10) by (vm_compute; discriminate). lia.
Qed.

(** The leaf of a pair whose key and hashed value fit the length buffer. *)
Lemma encodeByteSlice_varint (bz : bytes) :
  len bz < 2 ^ 56 → encodeByteSlice bz = Some (varint (len bz) ++ bz).
Proof.
  intros Hl. unfold encodeByteSlice.
  rewrite PutUvarint_varint by (unfold len in *; lia). done.
Qed.

Lemma kvPair_bytes_leaf (kv : Pair) :
  len (Key kv) < 2 ^ 56 → len (Value kv) < 2 ^ 56 →
  kvPair_bytes kv = Some (leaf kv).
Proof.
  intros Hk Hv. unfold kvPair_bytes, leaf.
  rewrite !encodeByteSlice_varint by done. simpl. by rewrite <-app_assoc.
Qed.

Lemma mapM_kvPair_bytes (l : Pairs) :
  Forall fits l → mapM kvPair_bytes l = Some (leaf <$> l).
Proof.
  induction 1 as [|kv l [Hk Hv] Hl IH]; [done|].
  change (mapM kvPair_bytes (kv :: l)) with
    (y ← kvPair_bytes kv; k ← mapM kvPair_bytes l; mret (y :: k)).
  rewrite kvPair_bytes_leaf, IH by done. done.
Qed.

(** The code on sample values: 300 is written as AC 02, one byte suffices
    below 128, and a length of 2^56 does not fit the eight-byte buffer. *)
Example PutUvarint_300 : PutUvarint 8 300 = Some [xac; x02].
Proof. reflexivity. Qed.

Example PutUvarint_32 : PutUvarint 8 32 = Some [x20].
Proof. reflexivity. Qed.

Example PutUvarint_panics : PutUvarint 8 (2 ^ 56) = None.
Proof. reflexivity. Qed.

Example varint_300 : varint 300 = [xac; x02] ∧ varint_value [xac; x02] = 300.
Proof. split; reflexivity. Qed.

Example kvPair_bytes_sample :
  kvPair_bytes {| Key := bytes_of_string "ab"; Value := bytes_of_string "xyz" |}
  = Some [x02; x61; x62; x03; x78; x79; x7a].
Proof. reflexivity. Qed.

Example Pairs_Sort_sample :
  Pairs_Sort [ {| Key := bytes_of_string "b"; Value := [x02] |};
               {| Key := bytes_of_string "a"; Value := [x09] |};
               {| Key := bytes_of_string "ab"; Value := [] |};
               {| Key := bytes_of_string "a"; Value := [x01] |} ]
  = [ {| Key := bytes_of_string "a"; Value := [x01] |};
      {| Key := bytes_of_string "a"; Value := [x09] |};
      {| Key := bytes_of_string "ab"; Value := [] |};
      {| Key := bytes_of_string "b"; Value := [x02] |} ].
Proof. reflexivity. Qed.

End Varint.

(** ** The Merkle root builders *)

Section Builders.
Import Rootmulti.
Context `{Hashing}.

Lemma Set_all_kvs (ins : list (string * bytes)) (sm : simpleMap) :
  kvs (Set_all ins sm) = kvs sm ++ (inserted <$> ins).
Proof.
  revert sm. induction ins as [|kv ins IH]; intros sm.
  - simpl. by rewrite app_nil_r.
  - change (Set_all (kv :: ins) sm) with (Set_all ins (Set_ kv.1 kv.2 sm)).
    rewrite IH. simpl. by rewrite <-app_assoc.
Qed.

Lemma Set_all_sorted (ins : list (string * bytes)) (sm : simpleMap) :
  sorted sm = false → sorted (Set_all ins sm) = false.
Proof.
  revert sm. induction ins as [|kv ins IH]; intros sm Hs; [done|].
  change (Set_all (kv :: ins) sm) with (Set_all ins (Set_ kv.1 kv.2 sm)).
  by apply IH.
Qed.

(** [Hash] on a builder filled from scratch. *)
Lemma Hash_Set_all (ins : list (string * bytes)) :
  Hash (Set_all ins newSimpleMap) =
    ({| kvs := Pairs_Sort (inserted <$> ins); sorted := true |},
     hashKVPairs (Pairs_Sort (inserted <$> ins))).
Proof.
  unfold Hash, Sort.
  rewrite Set_all_sorted, Set_all_kvs by done. done.
Qed.

(** The root depends on the inserted pairs only up to their order, also when
    keys repeat. *)
Lemma Hash_permutation (ins1 ins2 : list (string * bytes)) :
  ins1 ≡ₚ ins2 →
  (Hash (Set_all ins1 newSimpleMap)).2 = (Hash (Set_all ins2 newSimpleMap)).2.
Proof.
  intros Hp. rewrite !Hash_Set_all. simpl.
  f_equal. apply Pairs_Sort_perm. by rewrite Hp.
Qed.

Lemma inserted_fits (kv : string * bytes) :
  len (bytes_of_string kv.1) < 2 ^ 56 → fits (inserted kv).
Proof.
  intros Hk. split; [done|]. unfold len. simpl. rewrite tmhash_Size. lia.
Qed.

Lemma hashKVPairs_leaves (l : Pairs) :
  Forall fits l → hashKVPairs l = Some (SimpleHashFromByteSlices (leaf <$> l)).
Proof.
  intros Hl. unfold hashKVPairs. by rewrite mapM_kvPair_bytes.
Qed.

Lemma same_builder_new : same_builder newMerkleMap newSimpleMap.
Proof. done. Qed.

Lemma same_builder_set key value mm sm :
  same_builder mm sm → same_builder (set key value mm) (Set_ key value sm).
Proof. intros [Hk Hs]. split; simpl; [by rewrite Hk | done]. Qed.

Lemma same_builder_set_all ins mm sm :
  same_builder mm sm → same_builder (set_all ins mm) (Set_all ins sm).
Proof.
  revert mm sm. induction ins as [|kv ins IH]; intros mm sm Hsim; [done|].
  change (set_all (kv :: ins) mm) with (set_all ins (set kv.1 kv.2 mm)).
  change (Set_all (kv :: ins) sm) with (Set_all ins (Set_ kv.1 kv.2 sm)).
  by apply IH, same_builder_set.
Qed.

Lemma same_builder_hash mm sm :
  same_builder mm sm →
  same_builder (hash mm).1 (Hash sm).1 ∧ (hash mm).2 = (Hash sm).2.
Proof.
  destruct mm as [mk ms], sm as [sk ss]. intros [Hk Hs]; simpl in *; subst.
  unfold hash, Hash, sort, Sort; simpl. by destruct ss.
Qed.

End Builders.

Section BuilderClaims.
Import Rootmulti.

(** C5.  Two fresh builders filled by [Set] with the same pairs of
    pairwise-distinct keys, in any two orders, return the same root from
    [Hash], and do return one when the keys fit the length buffer; in
    particular the orders b, a, c and a, c, b of the literal scenario give
    the same root bytes. *)
Theorem Hash_order_independent `{Hashing} :
  (∀ ins1 ins2 : list (string * bytes),
     NoDup ins1.*1 → ins1 ≡ₚ ins2 →
     (Hash (Set_all ins1 newSimpleMap)).2 = (Hash (Set_all ins2 newSimpleMap)).2
     ∧ (Forall (λ kv, len (bytes_of_string kv.1) < 2 ^ 56) ins1 →
        is_Some (Hash (Set_all ins1 newSimpleMap)).2))
  ∧ (Hash (Set_all literal_bac newSimpleMap)).2 =
    (Hash (Set_all literal_acb newSimpleMap)).2.
Proof.
  split.
  - intros ins1 ins2 _ Hp. split; [by apply Hash_permutation|].
    intros Hfit. rewrite Hash_Set_all. simpl.
    rewrite hashKVPairs_leaves; [done|].
    rewrite Pairs_Sort_Permutation. apply Forall_fmap.
    eapply Forall_impl; [done|]. intros kv Hk. by apply inserted_fits.
  - apply Hash_permutation. unfold literal_bac, literal_acb.
    etrans; [apply perm_swap|]. apply perm_skip, perm_swap.
Qed.

(** The statement of C5 on the stand-in hashing, at the literal scenario. *)
Lemma Hash_order_independent_witness :
  NoDup literal_bac.*1 ∧ literal_bac ≡ₚ literal_acb ∧
  (@Hash Sample.hashing (@Set_all Sample.hashing literal_bac newSimpleMap)).2 =
  (@Hash Sample.hashing (@Set_all Sample.hashing literal_acb newSimpleMap)).2.
Proof.
  assert (Hnd : NoDup literal_bac.*1) by (apply (bool_decide_unpack _); by vm_compute).
  assert (Hp : literal_bac ≡ₚ literal_acb).
  { unfold literal_bac, literal_acb.
    etrans; [apply perm_swap|]. apply perm_skip, perm_swap. }
  split; [exact Hnd|]. split; [exact Hp|].
  exact (proj1 (proj1 (@Hash_order_independent Sample.hashing) _ _ Hnd Hp)).
Defined.

(** C6.  [Set] appends the key with the hash of the value and marks the
    builder dirty.  [Hash], on any builder state whose pairs fit the length
    buffer, leaves the pairs sorted (if the builder was dirty: a permutation
    of the pairs in lexicographic order of the raw key bytes) and returns
    the Merkle hash of the leaves of the pairs in that order, each leaf being
    varint(len(key)), key, varint(len(hashedValue)), hashedValue, where a
    varint is the little-endian base-128 encoding with continuation bits,
    which [PutUvarint] writes and which stands for the length. *)
Theorem Hash_leaves `{Hashing} (sm : simpleMap) :
  Forall fits (kvs sm) →
  let ordered := if sorted sm then kvs sm else Pairs_Sort (kvs sm) in
  Hash sm = ({| kvs := ordered; sorted := true |},
             Some (SimpleHashFromByteSlices (leaf <$> ordered)))
  ∧ Pairs_Sort (kvs sm) ≡ₚ kvs sm
  ∧ Sorted key_le (Pairs_Sort (kvs sm))
  ∧ (∀ key value,
       Set_ key value sm =
         {| kvs := kvs sm ++ [{| Key := bytes_of_string key; Value := tmhash_Sum value |}];
            sorted := false |})
  ∧ (∀ kv, kv ∈ kvs sm →
       PutUvarint 8 (len (Key kv)) = Some (varint (len (Key kv))) ∧
       PutUvarint 8 (len (Value kv)) = Some (varint (len (Value kv))) ∧
       varint_value (varint (len (Key kv))) = len (Key kv) ∧
       varint_value (varint (len (Value kv))) = len (Value kv)).
Proof.
  intros Hfit ordered. split; [|split; [|split; [|split]]].
  - assert (Hord : Forall fits ordered).
    { unfold ordered. destruct (sorted sm); [done|].
      by rewrite Pairs_Sort_Permutation. }
    unfold Hash, Sort. subst ordered. destruct sm as [l [|]]; simpl in *;
      by rewrite hashKVPairs_leaves.
  - apply Pairs_Sort_Permutation.
  - apply Pairs_Sort_by_key.
  - done.
  - intros kv Hkv. rewrite Forall_forall in Hfit. destruct (Hfit kv Hkv) as [Hk Hv].
    unfold len in *.
    repeat split; first [apply PutUvarint_varint | apply varint_value_varint]; lia.
Qed.

(** The statement of C6 on the stand-in hashing, on the builder of the
    literal scenario. *)
Lemma Hash_leaves_witness :
  let sm := @Set_all Sample.hashing literal_bac newSimpleMap in
  Forall fits (kvs sm) ∧
  (@Hash Sample.hashing sm).2 =
    Some (@SimpleHashFromByteSlices Sample.hashing
            (leaf <$> (@inserted Sample.hashing <$> [
               ("a"%string, bytes_of_string "1");
               ("b"%string, bytes_of_string "2");
               ("c"%string, bytes_of_string "3")]))).
Proof.
  intros sm.
  assert (Hfit : Forall fits (kvs sm)).
  { repeat constructor; vm_compute; done. }
  split; [exact Hfit|].
  pose proof (proj1 (@Hash_leaves Sample.hashing sm Hfit)) as HH.
  rewrite HH. reflexivity.
Defined.

(** C10.  The same insertions applied to a fresh [merkleMap] by [set] and to
    a fresh [simpleMap] by [Set] give the same root from [hash] and from
    [Hash]; the two builders also hold the same pairs afterwards. *)
Theorem merkleMap_simpleMap_equivalent `{Hashing} (ins : list (string * bytes)) :
  (hash (set_all ins newMerkleMap)).2 = (Hash (Set_all ins newSimpleMap)).2
  ∧ same_builder (hash (set_all ins newMerkleMap)).1 (Hash (Set_all ins newSimpleMap)).1.
Proof.
  pose proof (same_builder_set_all ins _ _ same_builder_new) as Hsim.
  destruct (same_builder_hash _ _ Hsim) as [Hpost Hroot]. done.
Qed.

End BuilderClaims.

(** ** Signature proofs *)

Section SignatureProofClaims.
Import Commitment.

(** C7.  [ValidateBasic] of a signature proof fails with [ErrInvalidProof]
    exactly when the signature is empty and succeeds on every other
    payload; [VerifyMembership] and [VerifyNonMembership] succeed for every
    root, path and value, whatever the signature. *)
Theorem SignatureProof_contract {Root Path : Type} (proof : SignatureProof) :
  ValidateBasic (Root := Root) (Path := Path) proof =
    match Signature_ proof with [] => Some ErrInvalidProof | _ :: _ => None end
  ∧ (ValidateBasic (Root := Root) (Path := Path) proof = Some ErrInvalidProof
       ↔ Signature_ proof = [])
  ∧ (∀ (root : Root) (path : Path) (value : bytes),
       VerifyMembership proof root path value = None)
  ∧ (∀ (root : Root) (path : Path), VerifyNonMembership proof root path = None).
Proof.
  assert (Hvb : SignatureProof_ValidateBasic proof =
    match Signature_ proof with [] => Some ErrInvalidProof | _ :: _ => None end).
  { unfold SignatureProof_ValidateBasic, SignatureProof_IsEmpty.
    destruct (Signature_ proof) as [|b sig]; [done|].
    rewrite bool_decide_eq_false_2; [done|]. unfold len. simpl. lia. }
  cbn [ValidateBasic VerifyMembership VerifyNonMembership SignatureProof_Proof].
  rewrite Hvb. destruct (Signature_ proof); repeat split; done.
Qed.

End SignatureProofClaims.

(** ** Misbehaviour *)

Section Misbehaviour.
Import Tendermint.
Context `{Externals}.

(** The saturated difference is at least every duration the true difference
    reaches. *)
Lemma Time_Sub_ge (t u P : Z) : P ≤ maxDuration → P ≤ t - u → P ≤ Time_Sub t u.
Proof.
  unfold Time_Sub, minDuration, maxDuration. intros HP Hd.
  destruct (Z.ltb_spec (t - u) (- 2 ^ 63)); [lia|].
  destruct (Z.ltb_spec (2 ^ 63 - 1) (t - u)); lia.
Qed.

Lemma alreadyFrozen_false (cs : ClientState) (ev : Evidence) :
  ¬ (IsFrozen cs = true ∧ FrozenHeight cs ≤ uint64 (Height ev)) →
  alreadyFrozen cs (TmEvidence ev) = Some false.
Proof.
  unfold alreadyFrozen. destruct (IsFrozen cs); [|done]. simpl.
  destruct (Z.leb_spec (FrozenHeight cs) (uint64 (Height ev))); naive_solver.
Qed.

Lemma alreadyFrozen_true (cs : ClientState) (m : MisbehaviourI) (h : Z) :
  IsFrozen cs = true → evidenceHeight m = Some h → FrozenHeight cs ≤ h →
  alreadyFrozen cs m = Some true.
Proof.
  unfold alreadyFrozen, evidenceHeight. intros -> Hm Hle.
  destruct (GetHeight m) as [g|]; simplify_eq/=.
  by destruct (Z.leb_spec (FrozenHeight cs) (uint64 g)); [|lia].
Qed.

Lemma alreadyFrozen_lower (cs : ClientState) (m : MisbehaviourI) (h : Z) :
  evidenceHeight m = Some h → h < FrozenHeight cs →
  alreadyFrozen cs m = Some false.
Proof.
  unfold alreadyFrozen, evidenceHeight. intros Hm Hlt.
  destruct (GetHeight m) as [g|]; simplify_eq/=.
  destruct (IsFrozen cs); [|done].
  by destruct (Z.leb_spec (FrozenHeight cs) (uint64 g)); [lia|].
Qed.

(** A call that succeeds returns the Tendermint client state frozen at the
    evidence height, and the frozen guard did not fire. *)
Lemma success_inv cs consI m height now r :
  CheckMisbehaviourAndUpdateState (TmClientState cs) consI m height now = Ok r →
  ∃ ev cs', m = TmEvidence ev ∧ r = TmClientState cs' ∧
    FrozenHeight cs' = uint64 (Height ev) ∧
    alreadyFrozen cs m = Some false.
Proof.
  unfold CheckMisbehaviourAndUpdateState.
  destruct (alreadyFrozen cs m) as [[|]|] eqn:Hf; try done.
  destruct consI as [cons|]; [|done].
  destruct m as [ev| |]; try done.
  destruct (checkMisbehaviour cs cons ev height now); [done|].
  intros [= <-]. eauto 10.
Qed.

End Misbehaviour.

Section MisbehaviourClaims.
Import Tendermint.

(** C1.  When the client state, consensus state and evidence are
    Tendermint's, the client is not frozen at a height at or below the
    evidence height, the reference height is at most the evidence height,
    the unbonding period has not expired, the validator set and both signed
    headers decode, and both commits pass the trust-level verification
    against the trusted validator set, the call succeeds and returns the
    client state with [FrozenHeight] equal to the evidence height (and
    nothing else changed). *)
Theorem misbehaviour_freezes_client `{Externals}
    (cs : ClientState) (cons : ConsensusState) (ev : Evidence) (height now : Z)
    (valset : ValidatorSet) (sh1 sh2 : SignedHeader) :
  ¬ (IsFrozen cs = true ∧ FrozenHeight cs ≤ uint64 (Height ev)) →
  height ≤ uint64 (Height ev) →
  Time_Sub now (Timestamp cons) < UnbondingPeriod cs →
  ValidatorSetFromProto (ValidatorSet_ cons) = inr valset →
  SignedHeaderFromProto (SignedHeader_ (Header1 ev)) = inr sh1 →
  SignedHeaderFromProto (SignedHeader_ (Header2 ev)) = inr sh2 →
  VerifyCommitTrusting valset (ChainID ev)
    (Commit_BlockID (SignedHeader_Commit sh1)) (SignedHeader_Height sh1)
    (SignedHeader_Commit sh1) (ToTendermint (TrustLevel cs)) = None →
  VerifyCommitTrusting valset (ChainID ev)
    (Commit_BlockID (SignedHeader_Commit sh2)) (SignedHeader_Height sh2)
    (SignedHeader_Commit sh2) (ToTendermint (TrustLevel cs)) = None →
  ∃ cs',
    CheckMisbehaviourAndUpdateState (TmClientState cs) (TmConsensusState cons)
      (TmEvidence ev) height now = Ok (TmClientState cs')
    ∧ FrozenHeight cs' = uint64 (Height ev)
    ∧ ID cs' = ID cs ∧ TrustLevel cs' = TrustLevel cs
    ∧ UnbondingPeriod cs' = UnbondingPeriod cs.
Proof.
  intros Hfrozen Hheight Htime Hvs Hsh1 Hsh2 Hv1 Hv2.
  exists {| ID := ID cs; TrustLevel := TrustLevel cs;
            UnbondingPeriod := UnbondingPeriod cs;
            FrozenHeight := uint64 (Height ev) |}.
  split; [|done].
  unfold CheckMisbehaviourAndUpdateState.
  rewrite (alreadyFrozen_false _ _ Hfrozen).
  unfold checkMisbehaviour.
  destruct (Z.ltb_spec (uint64 (Height ev)) height); [lia|].
  destruct (Z.leb_spec (UnbondingPeriod cs) (Time_Sub now (Timestamp cons))); [lia|].
  by rewrite Hvs, Hsh1, Hsh2, Hv1, Hv2.
Qed.

(** C1 on the stand-in library: an active client, evidence at height 7
    loaded at height 5, forty nanoseconds after the trusted timestamp. *)
Lemma misbehaviour_freezes_client_witness :
  ∃ cs',
    CheckMisbehaviourAndUpdateState (H := Sample.externals)
      (TmClientState (Sample.clientState 0)) (TmConsensusState Sample.consensusState)
      (TmEvidence (Sample.evidence 7)) 5 50 = Ok (TmClientState cs')
    ∧ FrozenHeight cs' = 7.
Proof.
  destruct (misbehaviour_freezes_client (H := Sample.externals)
              (Sample.clientState 0) Sample.consensusState (Sample.evidence 7) 5 50
              [10; 10; 10]
              {| Sample.sh_height := 7; Sample.sh_signers := [0; 1]%nat |}
              {| Sample.sh_height := 7; Sample.sh_signers := [1; 2]%nat |})
    as (cs' & Hcall & Hfh & _).
  - intros [Hf _]. vm_compute in Hf. discriminate Hf.
  - vm_compute. discriminate.
  - vm_compute. reflexivity.
  - reflexivity.
  - reflexivity.
  - reflexivity.
  - reflexivity.
  - reflexivity.
  - exists cs'. split; [exact Hcall | exact Hfh].
Defined.

(** One call on a frozen client: evidence at a height at or above the
    frozen height is rejected with an error and no state is returned;
    evidence strictly below it passes the frozen guard, and the call never
    returns the already-frozen error for it; and whenever the call succeeds,
    the returned frozen height is strictly lower than before.  Heights are
    the unsigned conversions the code compares. *)
Theorem frozen_height_only_lowered `{Externals}
    (cs : ClientState) (consI : ConsensusStateI) (m : MisbehaviourI)
    (height now : Z) :
  IsFrozen cs = true →
  (∀ h, evidenceHeight m = Some h → FrozenHeight cs ≤ h →
     ∃ e, CheckMisbehaviourAndUpdateState (TmClientState cs) consI m height now = Err e)
  ∧ (∀ h, evidenceHeight m = Some h → h < FrozenHeight cs →
       alreadyFrozen cs m = Some false
       ∧ ∀ args,
           CheckMisbehaviourAndUpdateState (TmClientState cs) consI m height now ≠
           Err (Wrapf ErrInvalidEvidence
                  "client is already frozen at earlier height %d than misbehaviour height %d"
                  args))
  ∧ (∀ r, CheckMisbehaviourAndUpdateState (TmClientState cs) consI m height now = Ok r →
       ∃ cs', r = TmClientState cs' ∧ FrozenHeight cs' < FrozenHeight cs).
Proof.
  intros Hfrozen. split; [|split].
  - intros h Hm Hle. unfold CheckMisbehaviourAndUpdateState.
    rewrite (alreadyFrozen_true _ _ _ Hfrozen Hm Hle). eauto.
  - intros h Hm Hlt. pose proof (alreadyFrozen_lower _ _ _ Hm Hlt) as Hf.
    split; [done|]. intros args. unfold CheckMisbehaviourAndUpdateState.
    rewrite Hf. destruct consI; [|done]. destruct m; try done.
    by destruct (checkMisbehaviour _ _ _ _ _).
  - intros r Hr. apply success_inv in Hr as (ev & cs' & -> & -> & Hfh & Hf).
    exists cs'. split; [done|]. rewrite Hfh.
    unfold alreadyFrozen in Hf. rewrite Hfrozen in Hf. simpl in Hf.
    destruct (Z.leb_spec (FrozenHeight cs) (uint64 (Height ev))); [done|lia].
Qed.

(** The refreeze guard of the design document on the stand-in library:
    a client frozen at height 5 rejects evidence at heights 5 and 10 and
    accepts evidence at height 3, which lowers the frozen height to 3. *)
Lemma frozen_height_only_lowered_witness :
  IsFrozen (Sample.clientState 5) = true
  ∧ (∃ e, CheckMisbehaviourAndUpdateState (H := Sample.externals)
            (TmClientState (Sample.clientState 5)) (TmConsensusState Sample.consensusState)
            (TmEvidence (Sample.evidence 5)) 1 50 = Err e)
  ∧ (∃ e, CheckMisbehaviourAndUpdateState (H := Sample.externals)
            (TmClientState (Sample.clientState 5)) (TmConsensusState Sample.consensusState)
            (TmEvidence (Sample.evidence 10)) 1 50 = Err e)
  ∧ CheckMisbehaviourAndUpdateState (H := Sample.externals)
      (TmClientState (Sample.clientState 5)) (TmConsensusState Sample.consensusState)
      (TmEvidence (Sample.evidence 3)) 1 50 = Ok (TmClientState (Sample.clientState 3)).
Proof.
  assert (Hf : IsFrozen (Sample.clientState 5) = true) by reflexivity.
  split; [exact Hf|]. split; [|split].
  - refine (proj1 (frozen_height_only_lowered (H := Sample.externals)
              (Sample.clientState 5) (TmConsensusState Sample.consensusState)
              (TmEvidence (Sample.evidence 5)) 1 50 Hf) 5 eq_refl _).
    vm_compute. discriminate.
  - refine (proj1 (frozen_height_only_lowered (H := Sample.externals)
              (Sample.clientState 5) (TmConsensusState Sample.consensusState)
              (TmEvidence (Sample.evidence 10)) 1 50 Hf) 10 eq_refl _).
    vm_compute. discriminate.
  - reflexivity.
Defined.

(** Lowering can reach 0: evidence at height 0 on a client frozen at
    height 5 is accepted and leaves the client active again. *)
Example lowering_to_zero :
  CheckMisbehaviourAndUpdateState (H := Sample.externals)
    (TmClientState (Sample.clientState 5)) (TmConsensusState Sample.consensusState)
    (TmEvidence (Sample.evidence 0)) 0 50 = Ok (TmClientState (Sample.clientState 0))
  ∧ IsFrozen (Sample.clientState 0) = false.
Proof. split; reflexivity. Qed.

(** A negative evidence height wraps around in the conversion to an
    unsigned integer. *)
Example negative_height_wraps :
  CheckMisbehaviourAndUpdateState (H := Sample.externals)
    (TmClientState (Sample.clientState 0)) (TmConsensusState Sample.consensusState)
    (TmEvidence (Sample.evidenceClaiming (-1) 1)) 1 50
  = Ok (TmClientState (Sample.clientState (2 ^ 64 - 1))).
Proof. reflexivity. Qed.

(** Nil evidence on a frozen client: the guard calls [GetHeight] on it. *)
Example nil_evidence_panics :
  CheckMisbehaviourAndUpdateState (H := Sample.externals)
    (TmClientState (Sample.clientState 5)) (TmConsensusState Sample.consensusState)
    NilMisbehaviour 1 50 = Panic.
Proof. reflexivity. Qed.





(** C3, as stated, fails: on the stand-in library, evidence at height 3
    loaded at height 5 and submitted 990 ns after the trusted timestamp
    (unbonding period 100 ns) is rejected for its height; the error does not
    report [ErrUnbondingPeriodExpired]. *)
Lemma expired_evidence_other_error :
  UnbondingPeriod (Sample.clientState 0) ≤ 1000 - Timestamp Sample.consensusState
  ∧ ∃ e,
      CheckMisbehaviourAndUpdateState (H := Sample.externals)
        (TmClientState (Sample.clientState 0)) (TmConsensusState Sample.consensusState)
        (TmEvidence (Sample.evidence 3)) 5 1000 = Err e
      ∧ kind e = ErrInvalidEvidence
      ∧ ¬ reports ErrUnbondingPeriodExpired e.
Proof.
  split; [vm_compute; discriminate|].
  eexists. split; [reflexivity|]. split; [reflexivity|].
  simpl. intros [?|[?|[]]]; discriminate.
Qed.

(** C3, amended.  When the current time minus the trusted consensus state's
    timestamp is at least the unbonding period, the call never succeeds,
    whatever the evidence; and when moreover the evidence is Tendermint's,
    the client is not frozen at or below the evidence height and the
    reference height is at most the evidence height, [checkMisbehaviour]
    returns the [ErrUnbondingPeriodExpired] error and the call fails with an
    [ErrInvalidEvidence] error whose description is the text of that error,
    whatever the two headers hold. *)
Theorem expired_evidence_rejected `{Externals}
    (cs : ClientState) (cons : ConsensusState) (m : MisbehaviourI)
    (height now : Z) :
  UnbondingPeriod cs ≤ maxDuration →
  UnbondingPeriod cs ≤ now - Timestamp cons →
  (∀ r, CheckMisbehaviourAndUpdateState (TmClientState cs) (TmConsensusState cons)
          m height now ≠ Ok r)
  ∧ (∀ ev, m = TmEvidence ev →
       ¬ (IsFrozen cs = true ∧ FrozenHeight cs ≤ uint64 (Height ev)) →
       height ≤ uint64 (Height ev) →
       checkMisbehaviour cs cons ev height now = Some (expired cs cons now)
       ∧ CheckMisbehaviourAndUpdateState (TmClientState cs) (TmConsensusState cons)
           m height now = Err (Wrap ErrInvalidEvidence (ErrorText (expired cs cons now)))
       ∧ reports ErrUnbondingPeriodExpired
           (Wrap ErrInvalidEvidence (ErrorText (expired cs cons now)))).
Proof.
  intros Hmax Hdiff. pose proof (Time_Sub_ge _ _ _ Hmax Hdiff) as Hsub.
  assert (Hcheck : ∀ ev, checkMisbehaviour cs cons ev height now ≠ None).
  { intros ev. unfold checkMisbehaviour.
    destruct (uint64 (Height ev) <? height); [done|].
    by destruct (Z.leb_spec (UnbondingPeriod cs) (Time_Sub now (Timestamp cons))); [|lia]. }
  split.
  - intros r Hr. pose proof Hr as Hinv.
    apply success_inv in Hinv as (ev & cs' & -> & -> & _ & Hf).
    unfold CheckMisbehaviourAndUpdateState in Hr. rewrite Hf in Hr.
    specialize (Hcheck ev). by destruct (checkMisbehaviour cs cons ev height now).
  - intros ev -> Hfrozen Hheight.
    assert (Hc : checkMisbehaviour cs cons ev height now = Some (expired cs cons now)).
    { unfold checkMisbehaviour.
      destruct (Z.ltb_spec (uint64 (Height ev)) height); [lia|].
      by destruct (Z.leb_spec (UnbondingPeriod cs) (Time_Sub now (Timestamp cons))); [|lia]. }
    split; [done|]. split.
    + unfold CheckMisbehaviourAndUpdateState.
      by rewrite (alreadyFrozen_false _ _ Hfrozen), Hc.
    + simpl. right. by left.
Qed.

(** Amended C3 on the stand-in library: evidence at height 7 loaded at
    height 5, submitted 990 ns after the trusted timestamp. *)
Lemma expired_evidence_rejected_witness :
  UnbondingPeriod (Sample.clientState 0) ≤ 1000 - Timestamp Sample.consensusState
  ∧ CheckMisbehaviourAndUpdateState (H := Sample.externals)
      (TmClientState (Sample.clientState 0)) (TmConsensusState Sample.consensusState)
      (TmEvidence (Sample.evidence 7)) 5 1000 =
    Err (Wrap ErrInvalidEvidence
           (ErrorText (expired (Sample.clientState 0) Sample.consensusState 1000))).
Proof.
  assert (Hmax : UnbondingPeriod (Sample.clientState 0) ≤ maxDuration)
    by (vm_compute; discriminate).
  assert (Hdiff : UnbondingPeriod (Sample.clientState 0)
                  ≤ 1000 - Timestamp Sample.consensusState)
    by (vm_compute; discriminate).
  split; [exact Hdiff|].
  refine (proj1 (proj2 (proj2 (expired_evidence_rejected (H := Sample.externals)
            (Sample.clientState 0) Sample.consensusState (TmEvidence (Sample.evidence 7))
            5 1000 Hmax Hdiff) (Sample.evidence 7) eq_refl _ _))).
  - intros [Hf _]. vm_compute in Hf. discriminate Hf.
  - vm_compute. discriminate.
Defined.

(** C4, as stated, fails: on a client frozen at height 5, a call whose
    consensus state and evidence (at height 10) are both of another client
    type is rejected by the already-frozen check, with [ErrInvalidEvidence]
    and not [ErrInvalidClientType]. *)
Lemma frozen_check_precedes_casts :
  ∃ e,
    CheckMisbehaviourAndUpdateState (H := Sample.externals)
      (TmClientState (Sample.clientState 5)) (OtherConsensusState "solomachine")
      (OtherMisbehaviour "solomachine" 10) 1 50 = Err e
    ∧ kind e = ErrInvalidEvidence
    ∧ ¬ reports ErrInvalidClientType e.
Proof.
  eexists. split; [reflexivity|]. split; [reflexivity|].
  simpl. intros [?|[]]; discriminate.
Qed.

(** C4, amended.  A client state that is not Tendermint's is rejected with
    [ErrInvalidClientType] before any other check.  A consensus state or
    evidence that is not Tendermint's is rejected with
    [ErrInvalidClientType] before the checks of [checkMisbehaviour], but
    after the already-frozen check: when the client is frozen at or below
    the evidence height the call fails with [ErrInvalidEvidence] whatever
    their types. *)
Theorem type_mismatch_rejected `{Externals}
    (csI : ClientStateI) (consI : ConsensusStateI) (m : MisbehaviourI)
    (height now : Z) :
  (∀ ty, csI = OtherClientState ty →
     CheckMisbehaviourAndUpdateState csI consI m height now =
       Err (Wrap ErrInvalidClientType (Literal "client state type is not Tendermint")))
  ∧ (∀ cs, csI = TmClientState cs → notFrozenAtOrBelow cs m →
       (∀ ty, consI = OtherConsensusState ty →
          CheckMisbehaviourAndUpdateState csI consI m height now =
            Err (Wrap ErrInvalidClientType (Literal "consensus state is not Tendermint")))
       ∧ (∀ cons, consI = TmConsensusState cons → (∀ ev, m ≠ TmEvidence ev) →
            CheckMisbehaviourAndUpdateState csI consI m height now =
              Err (Wrap ErrInvalidClientType (Literal "evidence type is not Tendermint"))))
  ∧ (∀ cs, csI = TmClientState cs → frozenAtOrBelow cs m →
       ∃ d, CheckMisbehaviourAndUpdateState csI consI m height now =
              Err (Wrap ErrInvalidEvidence d)).
Proof.
  split; [|split].
  - by intros ty ->.
  - intros cs -> Hnot.
    assert (Hf : alreadyFrozen cs m = Some false).
    { destruct Hnot as [Hn|(h & Hm & Hlt)]; [|by eapply alreadyFrozen_lower].
      unfold alreadyFrozen. by rewrite Hn. }
    unfold CheckMisbehaviourAndUpdateState. rewrite Hf. split.
    + by intros ty ->.
    + intros cons -> Hm. destruct m as [ev| |]; [|done..]. by destruct (Hm ev).
  - intros cs -> (Hfrozen & h & Hm & Hle).
    unfold CheckMisbehaviourAndUpdateState.
    rewrite (alreadyFrozen_true _ _ _ Hfrozen Hm Hle). eauto.
Qed.

(** Amended C4 on the stand-in library: a client frozen at height 5 and
    evidence of another client type at height 3, with a consensus state of
    another client type. *)
Lemma type_mismatch_rejected_witness :
  notFrozenAtOrBelow (Sample.clientState 5) (OtherMisbehaviour "solomachine" 3)
  ∧ CheckMisbehaviourAndUpdateState (H := Sample.externals)
      (TmClientState (Sample.clientState 5)) (OtherConsensusState "solomachine")
      (OtherMisbehaviour "solomachine" 3) 1 50 =
    Err (Wrap ErrInvalidClientType (Literal "consensus state is not Tendermint")).
Proof.
  assert (Hn : notFrozenAtOrBelow (H := Sample.externals)
                 (Sample.clientState 5) (OtherMisbehaviour "solomachine" 3)).
  { right. exists 3. split; [reflexivity | vm_compute; reflexivity]. }
  split; [exact Hn|].
  exact (proj1 (proj1 (proj2 (type_mismatch_rejected (H := Sample.externals)
           (TmClientState (Sample.clientState 5)) (OtherConsensusState "solomachine")
           (OtherMisbehaviour "solomachine" 3) 1 50)) _ eq_refl Hn) _ eq_refl).
Defined.

End MisbehaviourClaims.

(** ** Connection handlers *)

Section HandlerFacts.
Import Connection.
Context `{EventNames} `{Keeper}.

Lemma assertProof_Some (v : Cached Proof) (p : Proof) :
  assertProof v = Some p ↔ v = CachedProof p.
Proof. destruct v; naive_solver. Qed.

Lemma holdsProof_cached (any : Any Proof) :
  holdsProof any ↔ ∃ p, GetCachedValue any = CachedProof p.
Proof.
  unfold holdsProof, is_Some. by setoid_rewrite assertProof_Some.
Qed.

Lemma emitAndReturn_events (ctx : Context Store) (evs : list Event) :
  emitAndReturn ctx evs =
    (EmitEvents ctx evs, Ok {| Events := events ctx ++ evs |}).
Proof. done. Qed.

End HandlerFacts.

(** Unfolds a handler and splits on its casts and on the keeper's result. *)
Ltac handler_cases :=
  unfold Connection.HandleMsgConnectionOpenInit,
    Connection.HandleMsgConnectionOpenTry,
    Connection.HandleMsgConnectionOpenAck,
    Connection.HandleMsgConnectionOpenConfirm,
    Connection.holdsProof, Connection.GetCachedValue in *;
  repeat match goal with
    | |- context [Connection.assertProof ?v] => destruct v; simpl
    | |- context [Connection.ConnOpenInit ?c ?a1 ?a2 ?a3] =>
        destruct (Connection.ConnOpenInit c a1 a2 a3) as [? [?|]]; simpl
    | |- context [Connection.ConnOpenTry ?c ?a1 ?a2 ?a3 ?a4 ?a5 ?a6 ?a7 ?a8] =>
        destruct (Connection.ConnOpenTry c a1 a2 a3 a4 a5 a6 a7 a8) as [? [?|]]; simpl
    | |- context [Connection.ConnOpenAck ?c ?a1 ?a2 ?a3 ?a4 ?a5 ?a6] =>
        destruct (Connection.ConnOpenAck c a1 a2 a3 a4 a5 a6) as [? [?|]]; simpl
    | |- context [Connection.ConnOpenConfirm ?c ?a1 ?a2 ?a3] =>
        destruct (Connection.ConnOpenConfirm c a1 a2 a3) as [? [?|]]; simpl
    end.

(** Settles [outcome = Panic ↔ ¬ every envelope holds a proof] once the
    casts are decided. *)
Ltac panic_iff :=
  unfold is_Some;
  split;
  [ intros Hp Hh;
    first [ discriminate Hp
          | (destruct Hh as [[? ?] [? ?]] || destruct Hh as [? ?]); discriminate ]
  | intros Hn; first [ reflexivity | exfalso; apply Hn; eauto ] ].

Section HandlerClaims.
Import Connection.

(** C8, as stated, fails: an OpenTry message whose first envelope was never
    unpacked makes the handler panic; it returns no [InvalidProof] error. *)
Lemma handler_panics_on_unpacked_envelope :
  @HandleMsgConnectionOpenTry Sample.eventNames Sample.keeper Sample.emptyContext
    (Sample.openTry (Sample.unpacked (bytes_of_string "sig"))
                    (Sample.packed (bytes_of_string "sig")))
  = (Sample.emptyContext, Panic).
Proof. reflexivity. Qed.

(** C8, amended.  The OpenTry, OpenAck and OpenConfirm handlers cast the
    cached value of every envelope to a proof before they call the keeper.
    When each envelope caches a proof the keeper is called with exactly
    these proofs and the handler fails exactly with the keeper's errors;
    otherwise the handler panics, and it does so before the keeper runs:
    the context is untouched. *)
Theorem proofs_cast_before_keeper `{EventNames} `{Keeper} (ctx : Context Store) :
  (∀ msg : MsgConnectionOpenTry.t Proof,
     let r := HandleMsgConnectionOpenTry ctx msg in
     (r.2 = Panic ↔
        ¬ (holdsProof (MsgConnectionOpenTry.ProofInit msg) ∧
           holdsProof (MsgConnectionOpenTry.ProofConsensus msg)))
     ∧ (r.2 = Panic → r.1 = ctx)
     ∧ (∀ proofInit proofConsensus,
          GetCachedValue (MsgConnectionOpenTry.ProofInit msg) = CachedProof proofInit →
          GetCachedValue (MsgConnectionOpenTry.ProofConsensus msg) = CachedProof proofConsensus →
          ∀ e, r.2 = Err e ↔
               (ConnOpenTry ctx (MsgConnectionOpenTry.ConnectionID msg)
                  (MsgConnectionOpenTry.Counterparty_ msg)
                  (MsgConnectionOpenTry.ClientID msg)
                  (MsgConnectionOpenTry.CounterpartyVersions msg)
                  proofInit proofConsensus
                  (MsgConnectionOpenTry.ProofHeight msg)
                  (MsgConnectionOpenTry.ConsensusHeight msg)).2 = Some e))
  ∧ (∀ msg : MsgConnectionOpenAck.t Proof,
       let r := HandleMsgConnectionOpenAck ctx msg in
       (r.2 = Panic ↔
          ¬ (holdsProof (MsgConnectionOpenAck.ProofTry msg) ∧
             holdsProof (MsgConnectionOpenAck.ProofConsensus msg)))
       ∧ (r.2 = Panic → r.1 = ctx)
       ∧ (∀ proofTry proofConsensus,
            GetCachedValue (MsgConnectionOpenAck.ProofTry msg) = CachedProof proofTry →
            GetCachedValue (MsgConnectionOpenAck.ProofConsensus msg) = CachedProof proofConsensus →
            ∀ e, r.2 = Err e ↔
                 (ConnOpenAck ctx (MsgConnectionOpenAck.ConnectionID msg)
                    (MsgConnectionOpenAck.Version msg)
                    proofTry proofConsensus
                    (MsgConnectionOpenAck.ProofHeight msg)
                    (MsgConnectionOpenAck.ConsensusHeight msg)).2 = Some e))
  ∧ (∀ msg : MsgConnectionOpenConfirm.t Proof,
       let r := HandleMsgConnectionOpenConfirm ctx msg in
       (r.2 = Panic ↔ ¬ holdsProof (MsgConnectionOpenConfirm.ProofAck msg))
       ∧ (r.2 = Panic → r.1 = ctx)
       ∧ (∀ proofAck,
            GetCachedValue (MsgConnectionOpenConfirm.ProofAck msg) = CachedProof proofAck →
            ∀ e, r.2 = Err e ↔
                 (ConnOpenConfirm ctx (MsgConnectionOpenConfirm.ConnectionID msg)
                    proofAck (MsgConnectionOpenConfirm.ProofHeight msg)).2 = Some e)).
Proof.
  split; [|split]; intros msg r; subst r.
  - split; [|split].
    + handler_cases; panic_iff.
    + handler_cases; naive_solver.
    + intros p1 p2 Hp1 Hp2 e. unfold HandleMsgConnectionOpenTry. rewrite Hp1, Hp2. simpl.
      handler_cases; split; congruence.
  - split; [|split].
    + handler_cases; panic_iff.
    + handler_cases; naive_solver.
    + intros p1 p2 Hp1 Hp2 e. unfold HandleMsgConnectionOpenAck. rewrite Hp1, Hp2. simpl.
      handler_cases; split; congruence.
  - split; [|split].
    + handler_cases; panic_iff.
    + handler_cases; naive_solver.
    + intros p1 Hp1 e. unfold HandleMsgConnectionOpenConfirm. rewrite Hp1. simpl.
      handler_cases; split; congruence.
Qed.

(** Amended C8 on the stand-in keeper: an OpenTry message with both
    envelopes unpacked and an empty consensus proof is not a panic, and
    fails with the keeper's error. *)
Lemma proofs_cast_before_keeper_witness :
  let msg := Sample.openTry (Sample.packed (bytes_of_string "sig")) (Sample.packed []) in
  GetCachedValue (MsgConnectionOpenTry.ProofInit msg) =
    CachedProof {| Commitment.Signature_ := bytes_of_string "sig" |}
  ∧ GetCachedValue (MsgConnectionOpenTry.ProofConsensus msg) =
    CachedProof {| Commitment.Signature_ := [] |}
  ∧ (@HandleMsgConnectionOpenTry Sample.eventNames Sample.keeper Sample.emptyContext msg).2
    = Err "invalid proof"%string.
Proof.
  intros msg. split; [reflexivity|]. split; [reflexivity|].
  apply (proj2 (proj2 (proj1 (@proofs_cast_before_keeper Sample.eventNames Sample.keeper
           Sample.emptyContext) msg)) _ _ eq_refl eq_refl).
  reflexivity.
Defined.

(** C9, as stated, fails: a successful OpenAck emits a step event that
    carries the connection identifier and neither the client nor the
    counterparty identifier. *)
Lemma ack_event_has_no_client_identifiers :
  ∃ ctx' step marker,
    @HandleMsgConnectionOpenAck Sample.eventNames Sample.keeper Sample.emptyContext
      (Sample.openAck (Sample.packed (bytes_of_string "sig"))
                      (Sample.packed (bytes_of_string "sig")))
    = (ctx', Ok {| Events := [step; marker] |})
    ∧ step = NewEvent "connection_open_ack" [NewAttribute "connection_id" "c1"]
    ∧ marker = NewEvent "message" [NewAttribute "module" "ibc_connection"]
    ∧ ∀ ev, ev ∈ [step; marker] →
        ¬ carries (@AttributeKeyClientID Sample.eventNames) ev ∧
        ¬ carries (@AttributeKeyCounterpartyClientID Sample.eventNames) ev.
Proof.
  do 3 eexists. split; [reflexivity|]. split; [reflexivity|]. split; [reflexivity|].
  intros ev Hev. unfold carries.
  apply list_elem_of_In in Hev. simpl in Hev.
  destruct Hev as [<-|[<-|[]]]; simpl; split; intros [v Hv];
    apply list_elem_of_In in Hv; simpl in Hv; destruct Hv as [Hv|[]]; discriminate Hv.
Qed.

(** C9, amended.  A handler whose keeper call fails returns the keeper's
    error and emits nothing: the context is the one the keeper left.  A
    handler whose keeper call succeeds emits exactly two events after those
    already in the event manager, the event of the step and then the
    generic message marker, and returns all events of the manager.  The
    step event of OpenInit and OpenTry carries the connection, client and
    counterparty client identifiers; the step event of OpenAck and
    OpenConfirm carries the connection identifier only. *)
Theorem handler_events `{EventNames} `{Keeper} (ctx : Context Store) :
  (∀ (msg : MsgConnectionOpenInit.t) ctx' o,
     ConnOpenInit ctx (MsgConnectionOpenInit.ConnectionID msg)
       (MsgConnectionOpenInit.ClientID msg)
       (MsgConnectionOpenInit.Counterparty_ msg) = (ctx', o) →
     let emitted :=
       [NewEvent EventTypeConnectionOpenInit
          [NewAttribute AttributeKeyConnectionID (MsgConnectionOpenInit.ConnectionID msg);
           NewAttribute AttributeKeyClientID (MsgConnectionOpenInit.ClientID msg);
           NewAttribute AttributeKeyCounterpartyClientID
             (Counterparty_ClientID (MsgConnectionOpenInit.Counterparty_ msg))];
        NewEvent EventTypeMessage [NewAttribute AttributeKeyModule AttributeValueCategory]] in
     HandleMsgConnectionOpenInit ctx msg =
       match o with
       | Some err => (ctx', Err err)
       | None => (EmitEvents ctx' emitted, Ok {| Events := events ctx' ++ emitted |})
       end)
  ∧ (∀ (msg : MsgConnectionOpenTry.t Proof) proofInit proofConsensus ctx' o,
       GetCachedValue (MsgConnectionOpenTry.ProofInit msg) = CachedProof proofInit →
       GetCachedValue (MsgConnectionOpenTry.ProofConsensus msg) = CachedProof proofConsensus →
       ConnOpenTry ctx (MsgConnectionOpenTry.ConnectionID msg)
         (MsgConnectionOpenTry.Counterparty_ msg)
         (MsgConnectionOpenTry.ClientID msg)
         (MsgConnectionOpenTry.CounterpartyVersions msg)
         proofInit proofConsensus
         (MsgConnectionOpenTry.ProofHeight msg)
         (MsgConnectionOpenTry.ConsensusHeight msg) = (ctx', o) →
       let emitted :=
         [NewEvent EventTypeConnectionOpenTry
            [NewAttribute AttributeKeyConnectionID (MsgConnectionOpenTry.ConnectionID msg);
             NewAttribute AttributeKeyClientID (MsgConnectionOpenTry.ClientID msg);
             NewAttribute AttributeKeyCounterpartyClientID
               (Counterparty_ClientID (MsgConnectionOpenTry.Counterparty_ msg))];
          NewEvent EventTypeMessage [NewAttribute AttributeKeyModule AttributeValueCategory]] in
       HandleMsgConnectionOpenTry ctx msg =
         match o with
         | Some err => (ctx', Err err)
         | None => (EmitEvents ctx' emitted, Ok {| Events := events ctx' ++ emitted |})
         end)
  ∧ (∀ (msg : MsgConnectionOpenAck.t Proof) proofTry proofConsensus ctx' o,
       GetCachedValue (MsgConnectionOpenAck.ProofTry msg) = CachedProof proofTry →
       GetCachedValue (MsgConnectionOpenAck.ProofConsensus msg) = CachedProof proofConsensus →
       ConnOpenAck ctx (MsgConnectionOpenAck.ConnectionID msg)
         (MsgConnectionOpenAck.Version msg)
         proofTry proofConsensus
         (MsgConnectionOpenAck.ProofHeight msg)
         (MsgConnectionOpenAck.ConsensusHeight msg) = (ctx', o) →
       let emitted :=
         [NewEvent EventTypeConnectionOpenAck
            [NewAttribute AttributeKeyConnectionID (MsgConnectionOpenAck.ConnectionID msg)];
          NewEvent EventTypeMessage [NewAttribute AttributeKeyModule AttributeValueCategory]] in
       HandleMsgConnectionOpenAck ctx msg =
         match o with
         | Some err => (ctx', Err err)
         | None => (EmitEvents ctx' emitted, Ok {| Events := events ctx' ++ emitted |})
         end)
  ∧ (∀ (msg : MsgConnectionOpenConfirm.t Proof) proofAck ctx' o,
       GetCachedValue (MsgConnectionOpenConfirm.ProofAck msg) = CachedProof proofAck →
       ConnOpenConfirm ctx (MsgConnectionOpenConfirm.ConnectionID msg)
         proofAck (MsgConnectionOpenConfirm.ProofHeight msg) = (ctx', o) →
       let emitted :=
         [NewEvent EventTypeConnectionOpenConfirm
            [NewAttribute AttributeKeyConnectionID (MsgConnectionOpenConfirm.ConnectionID msg)];
          NewEvent EventTypeMessage [NewAttribute AttributeKeyModule AttributeValueCategory]] in
       HandleMsgConnectionOpenConfirm ctx msg =
         match o with
         | Some err => (ctx', Err err)
         | None => (EmitEvents ctx' emitted, Ok {| Events := events ctx' ++ emitted |})
         end).
Proof.
  split; [|split; [|split]].
  - intros msg ctx' o Hk emitted. unfold HandleMsgConnectionOpenInit.
    rewrite Hk. by destruct o.
  - intros msg p1 p2 ctx' o Hp1 Hp2 Hk emitted. unfold HandleMsgConnectionOpenTry.
    rewrite Hp1, Hp2. simpl. rewrite Hk. by destruct o.
  - intros msg p1 p2 ctx' o Hp1 Hp2 Hk emitted. unfold HandleMsgConnectionOpenAck.
    rewrite Hp1, Hp2. simpl. rewrite Hk. by destruct o.
  - intros msg p1 ctx' o Hp1 Hk emitted. unfold HandleMsgConnectionOpenConfirm.
    rewrite Hp1. simpl. rewrite Hk. by destruct o.
Qed.

(** Amended C9 on the stand-in keeper: a successful OpenTry, and one the
    keeper rejects for its empty consensus proof. *)
Lemma handler_events_witness :
  let emitted :=
    [NewEvent "connection_open_try"
       [NewAttribute "connection_id" "c1"; NewAttribute "client_id" "clientB";
        NewAttribute "counterparty_client_id" "clientA"];
     NewEvent "message" [NewAttribute "module" "ibc_connection"]] in
  @HandleMsgConnectionOpenTry Sample.eventNames Sample.keeper Sample.emptyContext
    (Sample.openTry (Sample.packed (bytes_of_string "sig"))
                    (Sample.packed (bytes_of_string "sig")))
  = ({| store := ["c1"%string]; events := emitted |}, Ok {| Events := emitted |})
  ∧ @HandleMsgConnectionOpenTry Sample.eventNames Sample.keeper Sample.emptyContext
      (Sample.openTry (Sample.packed (bytes_of_string "sig")) (Sample.packed []))
    = (Sample.emptyContext, Err "invalid proof"%string).
Proof.
  intros emitted. split.
  - exact (proj1 (proj2 (@handler_events Sample.eventNames Sample.keeper
             Sample.emptyContext))
             (Sample.openTry (Sample.packed (bytes_of_string "sig"))
                             (Sample.packed (bytes_of_string "sig")))
             _ _ _ None eq_refl eq_refl eq_refl).
  - exact (proj1 (proj2 (@handler_events Sample.eventNames Sample.keeper
             Sample.emptyContext))
             (Sample.openTry (Sample.packed (bytes_of_string "sig")) (Sample.packed []))
             _ _ _ (Some "invalid proof"%string) eq_refl eq_refl eq_refl).
Defined.

End HandlerClaims.

(** ** More on the length-prefixed encoding *)

Section Encoding.
Import Rootmulti.

Lemma PutUvarint_None (cap : nat) (x : Z) :
  0 ≤ x → PutUvarint (S cap) x = None ↔ 128 ^ Z.of_nat (S cap) ≤ x.
Proof.
  intros Hx. split; [|apply PutUvarint_overflow].
  intros Hn. destruct (Z.le_gt_cases (128 ^ Z.of_nat (S cap)) x) as [|Hlt]; [done|].
  rewrite PutUvarint_digits in Hn by lia. done.
Qed.


(** What [PutUvarint] writes can be read back, whatever follows it. *)
Lemma uvarint_split_PutUvarint (cap : nat) (x : Z) (bs rest : bytes) :
  0 ≤ x → PutUvarint cap x = Some bs →
  uvarint_split (bs ++ rest) = Some (x, rest).
Proof.
  revert x bs. induction cap as [|cap IH]; intros x bs Hx; simpl; [done|].
  destruct (Z.leb_spec 128 x) as [Hge|Hlt].
  - destruct (PutUvarint cap (Z.shiftr x 7)) as [bs'|] eqn:E; [|done].
    intros [= <-]. simpl.
    rewrite continuation_byte, Z_of_byte_of_Z by done.
    pose proof (Z.mod_pos_bound x 128 ltac:(lia)) as Hm.
    rewrite (Z.mod_small (x mod 128 + 128) 256) by lia.
    destruct (Z.ltb_spec (x mod 128 + 128) 128); [lia|].
    rewrite (IH (Z.shiftr x 7) bs') by (try apply Z.shiftr_nonneg; done).
    simpl. do 2 f_equal. rewrite Z.shiftr_div_pow2 by lia. change (2 ^ 7) with 128.
    pose proof (Z.div_mod x 128 ltac:(lia)). lia.
  - intros [= <-]. simpl. rewrite Z_of_byte_of_Z, (Z.mod_small x 256) by lia.
    by destruct (Z.ltb_spec x 128); [|lia].
Qed.

Lemma decodeByteSlice_encodeByteSlice (bz e rest : bytes) :
  encodeByteSlice bz = Some e → decodeByteSlice (e ++ rest) = Some (bz, rest).
Proof.
  unfold encodeByteSlice, decodeByteSlice.
  destruct (PutUvarint 8 (len bz)) as [pre|] eqn:E; [|done]. intros [= <-].
  rewrite <-app_assoc.
  assert (Hl : 0 ≤ len bz) by (unfold len; lia).
  rewrite (uvarint_split_PutUvarint _ _ _ _ Hl E). simpl.
  unfold len. rewrite length_app, Nat2Z.id.
  destruct (Z.leb_spec (Z.of_nat (length bz)) (Z.of_nat (length bz + length rest)));
    [|lia].
  by rewrite take_app_length, drop_app_length.
Qed.

Lemma decodeKVPair_bytes (kv : Pair) (b rest : bytes) :
  kvPair_bytes kv = Some b → decodeKVPair (b ++ rest) = Some (kv, rest).
Proof.
  unfold kvPair_bytes, decodeKVPair.
  destruct (encodeByteSlice (Key kv)) as [k|] eqn:Ek; [|done].
  destruct (encodeByteSlice (Value kv)) as [v|] eqn:Ev; [|done].
  intros [= <-]. rewrite <-!app_assoc.
  rewrite (decodeByteSlice_encodeByteSlice _ _ _ Ek). simpl.
  rewrite (decodeByteSlice_encodeByteSlice _ _ _ Ev). simpl.
  by destruct kv.
Qed.

Lemma encodeByteSlice_None (bz : bytes) :
  encodeByteSlice bz = None ↔ 2 ^ 56 ≤ len bz.
Proof.
  unfold encodeByteSlice.
  rewrite <-(PutUvarint_None 7 (len bz)) by (unfold len; lia).
  destruct (PutUvarint 8 (len bz)); naive_solver.
Qed.

Lemma encodeByteSlice_Some (bz : bytes) :
  is_Some (encodeByteSlice bz) ↔ len bz < 2 ^ 56.
Proof.
  rewrite <-not_eq_None_Some, encodeByteSlice_None. lia.
Qed.


(** X2.  Leaves are unambiguous: two pairs whose encodings, each followed
    by arbitrary bytes, give the same byte string are the same pair followed
    by the same bytes; in particular [kvPair.bytes] and [KVPair.Bytes] of
    [NewKVPair] are injective. *)
Theorem kvPair_bytes_prefix_free (kv1 kv2 : Pair) (b1 b2 rest1 rest2 : bytes) :
  kvPair_bytes kv1 = Some b1 → kvPair_bytes kv2 = Some b2 →
  b1 ++ rest1 = b2 ++ rest2 →
  (kv1 = kv2 ∧ rest1 = rest2)
  ∧ (∀ k1 v1 k2 v2 b,
       KVPair_Bytes (NewKVPair k1 v1) = Some b →
       KVPair_Bytes (NewKVPair k2 v2) = Some b → k1 = k2 ∧ v1 = v2).
Proof.
  intros H1 H2 Hb. split.
  - pose proof (decodeKVPair_bytes _ _ rest1 H1) as D1.
    pose proof (decodeKVPair_bytes _ _ rest2 H2) as D2.
    rewrite Hb, D2 in D1. by simplify_eq.
  - intros k1 v1 k2 v2 b Hk1 Hk2.
    pose proof (decodeKVPair_bytes (NewKVPair k1 v1) _ [] Hk1) as D1.
    pose proof (decodeKVPair_bytes (NewKVPair k2 v2) _ [] Hk2) as D2.
    rewrite D2 in D1. by simplify_eq.
Qed.

Lemma kvPair_bytes_prefix_free_witness :
  let kv := {| Key := bytes_of_string "ab"; Value := bytes_of_string "xyz" |} in
  kvPair_bytes kv = Some [x02; x61; x62; x03; x78; x79; x7a]
  ∧ (kv = kv ∧ [x00] = [x00]).
Proof.
  intros kv.
  assert (Hb : kvPair_bytes kv = Some [x02; x61; x62; x03; x78; x79; x7a])
    by reflexivity.
  split; [exact Hb|].
  exact (proj1 (kvPair_bytes_prefix_free kv kv _ _ [x00] [x00] Hb Hb eq_refl)).
Defined.

Lemma kvPair_bytes_None (kv : Pair) : kvPair_bytes kv = None ↔ ¬ fits kv.
Proof.
  unfold kvPair_bytes, fits.
  rewrite <-(encodeByteSlice_Some (Key kv)), <-(encodeByteSlice_Some (Value kv)).
  destruct (encodeByteSlice (Key kv)), (encodeByteSlice (Value kv)); simpl;
    unfold is_Some;
    (split;
       [ intros Hx; try done; intros [[? ?] [? ?]]; done
       | intros Hn; try done; exfalso; apply Hn; eauto ]).
Qed.

Lemma mapM_kvPair_bytes_Some (l : Pairs) :
  is_Some (mapM kvPair_bytes l) ↔ Forall fits l.
Proof.
  split.
  - intros [k Hk]. apply mapM_Some in Hk.
    induction Hk as [|kv b l k Hb _ IH]; constructor; [|done].
    destruct (decide (fits kv)) as [|Hn]; [done|].
    apply kvPair_bytes_None in Hn. congruence.
  - intros Hl. rewrite mapM_kvPair_bytes by done. eauto.
Qed.

End Encoding.

(** ** More on the builders *)

Section BuilderCalls.
Import Rootmulti.
Context `{Hashing}.

Lemma Sort_idemp (sm : simpleMap) : Sort (Sort sm) = Sort sm.
Proof. unfold Sort. by destruct (sorted sm) eqn:E; simpl; rewrite ?E. Qed.

Lemma Sort_kvs_Permutation (sm : simpleMap) : kvs (Sort sm) ≡ₚ kvs sm.
Proof.
  unfold Sort. destruct (sorted sm); [done|]. apply Pairs_Sort_Permutation.
Qed.

Lemma consistent_Sort sm l : consistent sm l → consistent (Sort sm) l.
Proof.
  intros [Hp Hs]. unfold Sort. destruct (sorted sm) eqn:E; [split; auto|].
  split; simpl; [by rewrite Pairs_Sort_Permutation|].
  intros _. apply Pairs_Sort_Sorted.
Qed.

Lemma consistent_apply c sm l :
  consistent sm l → consistent (apply c sm) (l ++ (inserted <$> insertions [c])).
Proof.
  intros Hc. destruct c as [key value| |]; simpl.
  - destruct Hc as [Hp _]. split; simpl; [by rewrite Hp|done].
  - rewrite app_nil_r. by apply consistent_Sort.
  - rewrite app_nil_r. by apply consistent_Sort.
Qed.

Lemma consistent_run calls sm l :
  consistent sm l → consistent (run calls sm) (l ++ (inserted <$> insertions calls)).
Proof.
  revert sm l. induction calls as [|c calls IH]; intros sm l Hc.
  - simpl. by rewrite app_nil_r.
  - change (run (c :: calls) sm) with (run calls (apply c sm)).
    apply (consistent_apply c) in Hc. apply IH in Hc.
    rewrite <-app_assoc, <-fmap_app in Hc. by destruct c.
Qed.

Lemma consistent_new : consistent newSimpleMap [].
Proof. by split. Qed.

Lemma consistent_Sort_kvs sm l : consistent sm l → kvs (Sort sm) = Pairs_Sort l.
Proof.
  intros [Hp Hs]. unfold Sort. destruct (sorted sm) eqn:E; simpl.
  - by apply Sort_unique; [|apply Hs].
  - by apply Pairs_Sort_perm.
Qed.

Lemma run_consistent (calls : list call) :
  consistent (run calls newSimpleMap) (inserted <$> insertions calls).
Proof. apply (consistent_run calls _ [] consistent_new). Qed.

(** X3.  [Hash] is idempotent on every builder state: a second call returns
    the same root and leaves the builder as the first call left it, and so
    does [Hash] after [KVPairs] or [Sort]. *)
Theorem Hash_idempotent (sm : simpleMap) :
  Hash (Hash sm).1 = ((Hash sm).1, (Hash sm).2)
  ∧ Hash (KVPairs sm).1 = Hash sm
  ∧ Hash (Sort sm) = Hash sm
  ∧ sorted (Hash sm).1 = true.
Proof.
  unfold Hash, KVPairs. simpl. rewrite !Sort_idemp.
  repeat split. unfold Sort. by destruct (sorted sm) eqn:E.
Qed.

(** X4.  However [Set], [Hash] and [Sort] calls are interleaved on a fresh
    builder, the pairs a builder flagged sorted holds are in sorted order,
    and [Hash] returns the root of the sorted inserted pairs: the cached
    order is never stale, and the root depends on the insertions only. *)
Theorem Hash_after_calls (calls : list call) :
  let sm := run calls newSimpleMap in
  (sorted sm = true → kvs sm = Pairs_Sort (inserted <$> insertions calls))
  ∧ Hash sm =
      ({| kvs := Pairs_Sort (inserted <$> insertions calls); sorted := true |},
       hashKVPairs (Pairs_Sort (inserted <$> insertions calls)))
  ∧ (Hash sm).2 = (Hash (Set_all (insertions calls) newSimpleMap)).2.
Proof.
  intros sm. pose proof (run_consistent calls) as Hc. fold sm in Hc.
  pose proof (consistent_Sort_kvs _ _ Hc) as Hk.
  assert (HS : Sort sm =
    {| kvs := Pairs_Sort (inserted <$> insertions calls); sorted := true |}).
  { rewrite <-Hk. unfold Sort. destruct sm as [l [|]]; simpl; [done|done]. }
  split; [|split].
  - intros Hs. rewrite <-Hk. unfold Sort. by rewrite Hs.
  - unfold Hash. by rewrite HS.
  - rewrite Hash_Set_all. unfold Hash. by rewrite HS.
Qed.

(** X5.  [KVPairs] on a builder made by calls returns the inserted pairs,
    one for every [Set] call (equal keys are not merged), in lexicographic
    order of the raw key bytes. *)
Theorem KVPairs_after_calls (calls : list call) :
  let out := (KVPairs (run calls newSimpleMap)).2 in
  out ≡ₚ inserted <$> insertions calls
  ∧ Sorted key_le out
  ∧ length out = length (insertions calls).
Proof.
  intros out. pose proof (run_consistent calls) as Hc.
  assert (Hout : out = Pairs_Sort (inserted <$> insertions calls))
    by (by apply consistent_Sort_kvs).
  rewrite Hout. split; [apply Pairs_Sort_Permutation|]. split.
  - apply Pairs_Sort_by_key.
  - by rewrite Pairs_Sort_Permutation, length_fmap.
Qed.

Lemma bytes_of_string_inj (s1 s2 : string) :
  bytes_of_string s1 = bytes_of_string s2 → s1 = s2.
Proof.
  unfold bytes_of_string. intros E.
  by rewrite <-(String.string_of_list_byte_of_string s1),
             <-(String.string_of_list_byte_of_string s2), E.
Qed.

Lemma Sorted_key_lt (l : Pairs) :
  NoDup (Key <$> l) → Sorted pair_le l → Sorted key_lt l.
Proof.
  intros Hnd Hs. apply Sorted_StronglySorted in Hs; [|apply _].
  apply StronglySorted_Sorted.
  induction Hs as [|p l Hs IH Hall]; [constructor|].
  rewrite fmap_cons in Hnd. apply NoDup_cons in Hnd as [Hp Hnd].
  constructor; [by apply IH|].
  rewrite Forall_forall in Hall |- *. intros q Hq.
  specialize (Hall q Hq). apply pair_le_key_le in Hall.
  unfold key_le, key_lt in *.
  destruct (bytes_Compare (Key p) (Key q)) eqn:E; [|done..].
  apply bytes_Compare_Eq in E. destruct Hp. rewrite E.
  by apply list_elem_of_fmap_2.
Qed.

(** X6.  When the keys inserted into a fresh builder are pairwise distinct,
    [KVPairs] returns the pairs with strictly increasing keys: the order of
    the leaves is decided by the keys alone. *)
Theorem KVPairs_strictly_increasing (calls : list call) :
  NoDup (insertions calls).*1 →
  Sorted key_lt (KVPairs (run calls newSimpleMap)).2.
Proof.
  intros Hnd. pose proof (run_consistent calls) as Hc.
  assert (Hout : (KVPairs (run calls newSimpleMap)).2
                 = Pairs_Sort (inserted <$> insertions calls))
    by (by apply consistent_Sort_kvs).
  rewrite Hout. apply Sorted_key_lt; [|apply Pairs_Sort_Sorted].
  rewrite Pairs_Sort_Permutation, <-list_fmap_compose.
  change (Key ∘ inserted) with (bytes_of_string ∘ (fst : string * bytes → string)).
  rewrite list_fmap_compose. apply NoDup_fmap_2; [|done].
  intros s1 s2. apply bytes_of_string_inj.
Qed.

(** X7.  [Hash] returns a root exactly when every pair of the builder has a
    key and a hashed value shorter than 2^56 bytes, and panics otherwise;
    on a builder filled by [Set] only the keys matter. *)
Theorem Hash_returns_iff (sm : simpleMap) :
  (is_Some (Hash sm).2 ↔ Forall fits (kvs sm))
  ∧ (∀ ins, is_Some (Hash (Set_all ins newSimpleMap)).2 ↔
            Forall (λ kv, len (bytes_of_string kv.1) < 2 ^ 56) ins).
Proof.
  assert (Hh : ∀ l, is_Some (hashKVPairs l) ↔ Forall fits l).
  { intros l. rewrite <-mapM_kvPair_bytes_Some. unfold hashKVPairs.
    destruct (mapM kvPair_bytes l); simpl; split; intros [? ?]; eauto; done. }
  split.
  - unfold Hash. simpl. by rewrite Hh, Sort_kvs_Permutation.
  - intros ins. rewrite Hash_Set_all. simpl.
    rewrite Hh, Pairs_Sort_Permutation, Forall_fmap.
    apply Forall_proper; [|done]. intros kv. simpl. split.
    + by intros [Hk _].
    + apply inserted_fits.
Qed.

Lemma same_builder_sort mm sm :
  same_builder mm sm → same_builder (sort mm) (Sort sm).
Proof.
  destruct mm as [mk ms], sm as [sk ss]. intros [Hk Hs]; simpl in *; subst.
  unfold sort, Sort; simpl. by destruct ss.
Qed.

(** X8.  The two builders are interchangeable under every sequence of
    [set]/[Set], [hash]/[Hash] and [sort]/[Sort] calls: started fresh, they
    return the same root at every hash call. *)
Theorem builders_same_roots (calls : list call) :
  mroots calls newMerkleMap = roots calls newSimpleMap.
Proof.
  pose proof same_builder_new as Hsim. revert Hsim.
  generalize newMerkleMap, newSimpleMap.
  induction calls as [|c calls IH]; intros mm sm Hsim; [done|].
  destruct c as [key value| |].
  - apply (IH (set key value mm) (Set_ key value sm)). by apply same_builder_set.
  - destruct (same_builder_hash _ _ Hsim) as [Hpost Hroot].
    change (mroots (CallHash :: calls) mm)
      with ((hash mm).2 :: mroots calls (hash mm).1).
    change (roots (CallHash :: calls) sm)
      with ((Hash sm).2 :: roots calls (Hash sm).1).
    rewrite Hroot. f_equal. by apply IH.
  - apply (IH (sort mm) (Sort sm)). by apply same_builder_sort.
Qed.

End BuilderCalls.

Section BuilderCallsWitnesses.
Import Rootmulti.

(** X6 on the stand-in hashing: b, then a root, then a and c. *)
Lemma KVPairs_strictly_increasing_witness :
  let calls := [CallSet "b" (bytes_of_string "2"); CallHash;
                CallSet "a" (bytes_of_string "1"); CallSet "c" (bytes_of_string "3")] in
  NoDup (insertions calls).*1
  ∧ Sorted key_lt (@KVPairs (@run Sample.hashing calls newSimpleMap)).2.
Proof.
  intros calls.
  assert (Hnd : NoDup (insertions calls).*1)
    by (apply (bool_decide_unpack _); by vm_compute).
  split; [exact Hnd|].
  exact (@KVPairs_strictly_increasing Sample.hashing calls Hnd).
Defined.

End BuilderCallsWitnesses.

(** ** More on the misbehaviour check *)

Section MisbehaviourFacts.
Import Tendermint.
Context `{Externals}.

(** X10.  [checkMisbehaviour] returns the [ErrInvalidHeight] error exactly
    when the reference height is above the evidence height, whatever else
    holds, and the [ErrUnbondingPeriodExpired] error exactly when the height
    check passes and the time since the trusted timestamp has reached the
    unbonding period. *)
Theorem checkMisbehaviour_first_checks
    (cs : ClientState) (cons : ConsensusState) (ev : Evidence) (height now : Z) :
  ((∃ d, checkMisbehaviour cs cons ev height now = Some (Wrap ErrInvalidHeight d))
     ↔ uint64 (Height ev) < height)
  ∧ ((∃ d, checkMisbehaviour cs cons ev height now =
             Some (Wrap ErrUnbondingPeriodExpired d))
     ↔ height ≤ uint64 (Height ev)
       ∧ UnbondingPeriod cs ≤ Time_Sub now (Timestamp cons)).
Proof.
  unfold checkMisbehaviour.
  destruct (Z.ltb_spec (uint64 (Height ev)) height) as [Hh|Hh].
  { split; split; try (intros [d [=]]); try lia; eauto. }
  destruct (Z.leb_spec (UnbondingPeriod cs) (Time_Sub now (Timestamp cons))) as [Ht|Ht].
  { split; split; try (intros [d [=]]); try lia; eauto. }
  split; split; try lia; intros [d Hd]; exfalso;
    repeat match type of Hd with
      | context [match ?x with _ => _ end] => destruct x
      end; done.
Qed.

(** Every error of [checkMisbehaviour] has one of three kinds. *)
Lemma checkMisbehaviour_kinds cs cons ev height now e :
  checkMisbehaviour cs cons ev height now = Some e →
  kind e = ErrInvalidHeight ∨ kind e = ErrUnbondingPeriodExpired
  ∨ kind e = ErrInvalidEvidence.
Proof.
  unfold checkMisbehaviour. intros He.
  repeat match type of He with
    | context [if ?b then _ else _] => destruct b
    | context [match ?x with _ => _ end] => destruct x
    end; simplify_eq; simpl; auto.
Qed.

(** What [checkMisbehaviour] returning nil means. *)
Lemma checkMisbehaviour_None cs cons ev height now :
  checkMisbehaviour cs cons ev height now = None →
  height ≤ uint64 (Height ev)
  ∧ Time_Sub now (Timestamp cons) < UnbondingPeriod cs
  ∧ ∃ valset sh1 sh2,
      ValidatorSetFromProto (ValidatorSet_ cons) = inr valset
      ∧ SignedHeaderFromProto (SignedHeader_ (Header1 ev)) = inr sh1
      ∧ SignedHeaderFromProto (SignedHeader_ (Header2 ev)) = inr sh2
      ∧ VerifyCommitTrusting valset (ChainID ev)
          (Commit_BlockID (SignedHeader_Commit sh1)) (SignedHeader_Height sh1)
          (SignedHeader_Commit sh1) (ToTendermint (TrustLevel cs)) = None
      ∧ VerifyCommitTrusting valset (ChainID ev)
          (Commit_BlockID (SignedHeader_Commit sh2)) (SignedHeader_Height sh2)
          (SignedHeader_Commit sh2) (ToTendermint (TrustLevel cs)) = None.
Proof.
  unfold checkMisbehaviour.
  destruct (Z.ltb_spec (uint64 (Height ev)) height); [done|].
  destruct (Z.leb_spec (UnbondingPeriod cs) (Time_Sub now (Timestamp cons))); [done|].
  destruct (ValidatorSetFromProto _) as [|valset] eqn:Hvs; [done|].
  destruct (SignedHeaderFromProto (SignedHeader_ (Header1 ev))) as [|sh1] eqn:Hs1; [done|].
  destruct (SignedHeaderFromProto (SignedHeader_ (Header2 ev))) as [|sh2] eqn:Hs2; [done|].
  destruct (VerifyCommitTrusting valset _ (Commit_BlockID (SignedHeader_Commit sh1)) _ _ _)
    eqn:Hv1; [done|].
  destruct (VerifyCommitTrusting valset _ (Commit_BlockID (SignedHeader_Commit sh2)) _ _ _)
    eqn:Hv2; [done|].
  intros _. split; [lia|]. split; [lia|]. eauto 10.
Qed.

End MisbehaviourFacts.

Section MisbehaviourCalls.
Import Tendermint.

Lemma alreadyFrozen_Some_false `{Externals} (cs : ClientState) (m : MisbehaviourI) :
  alreadyFrozen cs m = Some false ↔ notFrozenAtOrBelow cs m.
Proof.
  unfold alreadyFrozen, notFrozenAtOrBelow, evidenceHeight.
  destruct (IsFrozen cs); [|split; auto].
  destruct (GetHeight m) as [g|]; simpl.
  - destruct (Z.leb_spec (FrozenHeight cs) (uint64 g)); split.
    + done.
    + intros [|(h & [= <-] & Hlt)]; [done|lia].
    + intros _. right. exists (uint64 g). split; [done|lia].
    + done.
  - split; [done|]. intros [|(h & ? & _)]; done.
Qed.

(** X11.  Every error [CheckMisbehaviourAndUpdateState] returns has kind
    [ErrInvalidClientType] or [ErrInvalidEvidence]; it is
    [ErrInvalidClientType] exactly when the client state is not Tendermint's,
    or the client is not frozen at or below the evidence height and the
    consensus state or the evidence is not Tendermint's. *)
Theorem CheckMisbehaviour_error_kinds `{Externals}
    (csI : ClientStateI) (consI : ConsensusStateI) (m : MisbehaviourI)
    (height now : Z) (e : error) :
  CheckMisbehaviourAndUpdateState csI consI m height now = Err e →
  (kind e = ErrInvalidClientType ∨ kind e = ErrInvalidEvidence)
  ∧ (kind e = ErrInvalidClientType ↔
       (∃ ty, csI = OtherClientState ty)
       ∨ (∃ cs, csI = TmClientState cs ∧ notFrozenAtOrBelow cs m
            ∧ ((∃ ty, consI = OtherConsensusState ty) ∨ (∀ ev, m ≠ TmEvidence ev)))).
Proof.
  unfold CheckMisbehaviourAndUpdateState.
  destruct csI as [cs|ty].
  2:{ intros [= <-]. simpl. split; [by left|]. split; [eauto|done]. }
  destruct (alreadyFrozen cs m) as [[|]|] eqn:Hf; [| |done].
  { intros [= <-]. simpl. split; [by right|]. split; [done|].
    intros [[ty [=]]|(cs' & [= <-] & Hn & _)].
    apply alreadyFrozen_Some_false in Hn. congruence. }
  pose proof (proj1 (alreadyFrozen_Some_false cs m) Hf) as Hn.
  destruct consI as [cons|ty].
  2:{ intros [= <-]. simpl. split; [by left|]. split; [|done].
      intros _. right. exists cs. eauto 10. }
  destruct m as [ev|ty h|].
  - destruct (checkMisbehaviour cs cons ev height now); [|done].
    intros [= <-]. simpl. split; [by right|]. split; [done|].
    intros [[ty [=]]|(cs' & _ & _ & [[ty [=]]|Hm])]. by destruct (Hm ev).
  - intros [= <-]. simpl. split; [by left|]. split; [|done].
    intros _. right. exists cs. split; [done|]. split; [done|]. by right.
  - intros [= <-]. simpl. split; [by left|]. split; [|done].
    intros _. right. exists cs. split; [done|]. split; [done|]. by right.
Qed.

(** X11 on the stand-in library: expired evidence. *)
Lemma CheckMisbehaviour_error_kinds_witness :
  ∃ e,
    CheckMisbehaviourAndUpdateState (H := Sample.externals)
      (TmClientState (Sample.clientState 0)) (TmConsensusState Sample.consensusState)
      (TmEvidence (Sample.evidence 7)) 5 1000 = Err e
    ∧ (kind e = ErrInvalidClientType ∨ kind e = ErrInvalidEvidence).
Proof.
  eexists. split; [reflexivity|].
  exact (proj1 (CheckMisbehaviour_error_kinds (H := Sample.externals)
           (TmClientState (Sample.clientState 0)) (TmConsensusState Sample.consensusState)
           (TmEvidence (Sample.evidence 7)) 5 1000 _ eq_refl)).
Defined.

(** X12.  A call succeeds only if every check passed: the three values are
    Tendermint's, the client is not frozen at or below the evidence height,
    the reference height is at most the evidence height, the unbonding
    period has not expired, the validator set and both headers decode, and
    both commits pass the trust-level verification; the state returned is
    the given one with [FrozenHeight] set to the evidence height. *)
Theorem success_only_if_verified `{Externals}
    (csI : ClientStateI) (consI : ConsensusStateI) (m : MisbehaviourI)
    (height now : Z) (r : ClientStateI) :
  CheckMisbehaviourAndUpdateState csI consI m height now = Ok r →
  ∃ cs cons ev valset sh1 sh2,
    csI = TmClientState cs ∧ consI = TmConsensusState cons ∧ m = TmEvidence ev
    ∧ ¬ (IsFrozen cs = true ∧ FrozenHeight cs ≤ uint64 (Height ev))
    ∧ height ≤ uint64 (Height ev)
    ∧ Time_Sub now (Timestamp cons) < UnbondingPeriod cs
    ∧ ValidatorSetFromProto (ValidatorSet_ cons) = inr valset
    ∧ SignedHeaderFromProto (SignedHeader_ (Header1 ev)) = inr sh1
    ∧ SignedHeaderFromProto (SignedHeader_ (Header2 ev)) = inr sh2
    ∧ VerifyCommitTrusting valset (ChainID ev)
        (Commit_BlockID (SignedHeader_Commit sh1)) (SignedHeader_Height sh1)
        (SignedHeader_Commit sh1) (ToTendermint (TrustLevel cs)) = None
    ∧ VerifyCommitTrusting valset (ChainID ev)
        (Commit_BlockID (SignedHeader_Commit sh2)) (SignedHeader_Height sh2)
        (SignedHeader_Commit sh2) (ToTendermint (TrustLevel cs)) = None
    ∧ r = TmClientState
            {| ID := ID cs; TrustLevel := TrustLevel cs;
               UnbondingPeriod := UnbondingPeriod cs;
               FrozenHeight := uint64 (Height ev) |}.
Proof.
  unfold CheckMisbehaviourAndUpdateState.
  destruct csI as [cs|]; [|done].
  destruct (alreadyFrozen cs m) as [[|]|] eqn:Hf; [done| |done].
  destruct consI as [cons|]; [|done].
  destruct m as [ev| |]; [|done..].
  destruct (checkMisbehaviour cs cons ev height now) eqn:Hc; [done|].
  intros [= <-].
  apply checkMisbehaviour_None in Hc
    as (Hh & Ht & valset & sh1 & sh2 & Hvs & Hs1 & Hs2 & Hv1 & Hv2).
  exists cs, cons, ev, valset, sh1, sh2.
  repeat (split; [done|]). split; [|done].
  intros [Hfr Hle]. unfold alreadyFrozen in Hf. rewrite Hfr in Hf. simpl in Hf.
  destruct (Z.leb_spec (FrozenHeight cs) (uint64 (Height ev))); [done|lia].
Qed.

(** X12 on the stand-in library: the successful call on an active client,
    whose evidence headers are signed by two thirds of the power each. *)
Lemma success_only_if_verified_witness :
  CheckMisbehaviourAndUpdateState (H := Sample.externals)
    (TmClientState (Sample.clientState 0)) (TmConsensusState Sample.consensusState)
    (TmEvidence (Sample.evidence 7)) 5 50 = Ok (TmClientState (Sample.clientState 7))
  ∧ ∃ valset sh1,
      ValidatorSetFromProto (Externals := Sample.externals)
        (ValidatorSet_ Sample.consensusState) = inr valset
      ∧ SignedHeaderFromProto (Externals := Sample.externals)
          (SignedHeader_ (Header1 (Sample.evidence 7))) = inr sh1
      ∧ VerifyCommitTrusting (Externals := Sample.externals) valset "chain"
          (Commit_BlockID (SignedHeader_Commit sh1)) (SignedHeader_Height sh1)
          (SignedHeader_Commit sh1) (1, 3) = None.
Proof.
  assert (Hok : CheckMisbehaviourAndUpdateState (H := Sample.externals)
    (TmClientState (Sample.clientState 0)) (TmConsensusState Sample.consensusState)
    (TmEvidence (Sample.evidence 7)) 5 50 = Ok (TmClientState (Sample.clientState 7)))
    by reflexivity.
  split; [exact Hok|].
  destruct (success_only_if_verified (H := Sample.externals) _ _ _ _ _ _ Hok)
    as (cs & cons & ev & valset & sh1 & sh2 & Hcs & Hcons & Hev & _ & _ & _
          & Hvs & Hs1 & _ & Hv1 & _).
  injection Hcs as <-. injection Hcons as <-. injection Hev as <-.
  exists valset, sh1. split; [exact Hvs|]. split; [exact Hs1 | exact Hv1].
Defined.




End MisbehaviourCalls.

(** ** More on the handlers *)

Section HandlerCalls.
Import Connection.

(** X15.  Whenever a handler returns a result, its events are all the
    events the event manager holds after the call, and the last two of them
    are the event of that handler's step, with its type and attributes, and
    then the message marker. *)
Theorem handler_result_events `{EventNames} `{Keeper}
    (ctx : Context Store) (res : Result) :
  (∀ msg, (HandleMsgConnectionOpenInit ctx msg).2 = Ok res →
     Events res = events (HandleMsgConnectionOpenInit ctx msg).1
     ∧ ∃ earlier, Events res = earlier ++
         [NewEvent EventTypeConnectionOpenInit
            [NewAttribute AttributeKeyConnectionID (MsgConnectionOpenInit.ConnectionID msg);
             NewAttribute AttributeKeyClientID (MsgConnectionOpenInit.ClientID msg);
             NewAttribute AttributeKeyCounterpartyClientID
               (Counterparty_ClientID (MsgConnectionOpenInit.Counterparty_ msg))];
          messageEvent])
  ∧ (∀ msg, (HandleMsgConnectionOpenTry ctx msg).2 = Ok res →
       Events res = events (HandleMsgConnectionOpenTry ctx msg).1
       ∧ ∃ earlier, Events res = earlier ++
           [NewEvent EventTypeConnectionOpenTry
              [NewAttribute AttributeKeyConnectionID (MsgConnectionOpenTry.ConnectionID msg);
               NewAttribute AttributeKeyClientID (MsgConnectionOpenTry.ClientID msg);
               NewAttribute AttributeKeyCounterpartyClientID
                 (Counterparty_ClientID (MsgConnectionOpenTry.Counterparty_ msg))];
            messageEvent])
  ∧ (∀ msg, (HandleMsgConnectionOpenAck ctx msg).2 = Ok res →
       Events res = events (HandleMsgConnectionOpenAck ctx msg).1
       ∧ ∃ earlier, Events res = earlier ++
           [NewEvent EventTypeConnectionOpenAck
              [NewAttribute AttributeKeyConnectionID (MsgConnectionOpenAck.ConnectionID msg)];
            messageEvent])
  ∧ (∀ msg, (HandleMsgConnectionOpenConfirm ctx msg).2 = Ok res →
       Events res = events (HandleMsgConnectionOpenConfirm ctx msg).1
       ∧ ∃ earlier, Events res = earlier ++
           [NewEvent EventTypeConnectionOpenConfirm
              [NewAttribute AttributeKeyConnectionID
                 (MsgConnectionOpenConfirm.ConnectionID msg)];
            messageEvent]).
Proof.
  split; [|split; [|split]]; intros msg; handler_cases;
    intros [= <-]; (split; [done|]); simpl; eauto.
Qed.

(** X15 on the stand-in keeper: a successful OpenAck. *)
Lemma handler_result_events_witness :
  let r := @HandleMsgConnectionOpenAck Sample.eventNames Sample.keeper
             Sample.emptyContext
             (Sample.openAck (Sample.packed (bytes_of_string "sig"))
                             (Sample.packed (bytes_of_string "sig"))) in
  ∃ res earlier,
    r.2 = Ok res ∧ Events res = events r.1
    ∧ Events res = earlier ++
        [NewEvent "connection_open_ack" [NewAttribute "connection_id" "c1"];
         NewEvent "message" [NewAttribute "module" "ibc_connection"]].
Proof.
  intros r.
  destruct (proj1 (proj2 (proj2 (@handler_result_events Sample.eventNames Sample.keeper
              Sample.emptyContext {| Events := events r.1 |})))
              (Sample.openAck (Sample.packed (bytes_of_string "sig"))
                              (Sample.packed (bytes_of_string "sig"))) eq_refl)
    as (Hev & earlier & Hlast).
  exists {| Events := events r.1 |}, earlier.
  split; [reflexivity|]. split; [exact Hev | exact Hlast].
Defined.

(** X16.  Events accumulate over the calls that share an event manager:
    when the keeper leaves the events alone, a successful OpenInit returns
    the earlier events followed by its own two, and a successful OpenConfirm
    on the context it left returns the events of the OpenInit result
    followed by its own two. *)
Theorem handler_events_accumulate `{EventNames} `{Keeper}
    (ctx ctx1 kctx1 kctx2 : Context Store)
    (init : MsgConnectionOpenInit.t) (confirm : MsgConnectionOpenConfirm.t Proof)
    (proofAck : Proof) (res1 : Result) :
  ConnOpenInit ctx (MsgConnectionOpenInit.ConnectionID init)
    (MsgConnectionOpenInit.ClientID init)
    (MsgConnectionOpenInit.Counterparty_ init) = (kctx1, None) →
  events kctx1 = events ctx →
  HandleMsgConnectionOpenInit ctx init = (ctx1, Ok res1) →
  GetCachedValue (MsgConnectionOpenConfirm.ProofAck confirm) = CachedProof proofAck →
  ConnOpenConfirm ctx1 (MsgConnectionOpenConfirm.ConnectionID confirm)
    proofAck (MsgConnectionOpenConfirm.ProofHeight confirm) = (kctx2, None) →
  events kctx2 = events ctx1 →
  ∃ ctx2 res2,
    HandleMsgConnectionOpenConfirm ctx1 confirm = (ctx2, Ok res2)
    ∧ Events res1 =
        events ctx ++
        [NewEvent EventTypeConnectionOpenInit
           [NewAttribute AttributeKeyConnectionID (MsgConnectionOpenInit.ConnectionID init);
            NewAttribute AttributeKeyClientID (MsgConnectionOpenInit.ClientID init);
            NewAttribute AttributeKeyCounterpartyClientID
              (Counterparty_ClientID (MsgConnectionOpenInit.Counterparty_ init))];
         messageEvent]
    ∧ Events res2 =
        Events res1 ++
        [NewEvent EventTypeConnectionOpenConfirm
           [NewAttribute AttributeKeyConnectionID
              (MsgConnectionOpenConfirm.ConnectionID confirm)];
         messageEvent].
Proof.
  intros Hk1 He1 Hh1 Hp Hk2 He2.
  unfold HandleMsgConnectionOpenInit in Hh1. rewrite Hk1 in Hh1.
  unfold emitAndReturn in Hh1. injection Hh1 as <- <-.
  unfold HandleMsgConnectionOpenConfirm. rewrite Hp. simpl. rewrite Hk2.
  unfold emitAndReturn. do 2 eexists. split; [reflexivity|]. simpl in *.
  rewrite He2, He1. by split.
Qed.

(** X16 on the stand-in keeper, which leaves the events alone. *)
Lemma handler_events_accumulate_witness :
  let init := {| MsgConnectionOpenInit.ConnectionID := "c1";
                 MsgConnectionOpenInit.ClientID := "clientA";
                 MsgConnectionOpenInit.Counterparty_ :=
                   {| Counterparty_ClientID := "clientB";
                      Counterparty_ConnectionID := "c2";
                      Counterparty_Prefix := bytes_of_string "ibc" |} |} in
  let confirm := {| MsgConnectionOpenConfirm.ConnectionID := "c1";
                    MsgConnectionOpenConfirm.ProofAck :=
                      Sample.packed (bytes_of_string "sig");
                    MsgConnectionOpenConfirm.ProofHeight := 10 |} in
  let r1 := @HandleMsgConnectionOpenInit Sample.eventNames Sample.keeper
              Sample.emptyContext init in
  ∃ res1 ctx2 res2,
    r1.2 = Ok res1
    ∧ @HandleMsgConnectionOpenConfirm Sample.eventNames Sample.keeper r1.1 confirm
      = (ctx2, Ok res2)
    ∧ Events res2 =
        Events res1 ++
        [NewEvent "connection_open_confirm" [NewAttribute "connection_id" "c1"];
         NewEvent "message" [NewAttribute "module" "ibc_connection"]].
Proof.
  intros init confirm r1.
  destruct (@handler_events_accumulate Sample.eventNames Sample.keeper
              Sample.emptyContext r1.1
              {| store := ["c1"%string]; events := [] |}
              {| store := ["c1"%string; "c1"%string]; events := events r1.1 |}
              init confirm {| Commitment.Signature_ := bytes_of_string "sig" |}
              {| Events := events r1.1 |}
              eq_refl eq_refl eq_refl eq_refl eq_refl eq_refl)
    as (ctx2 & res2 & Hh & _ & Hev).
  exists {| Events := events r1.1 |}, ctx2, res2.
  split; [reflexivity|]. split; [exact Hh | exact Hev].
Defined.

End HandlerCalls.
